(** * AuthForm: the login / registration form controller

    A shallow embedding of the handlers of the [AuthForm] component
    ([src/components/AuthForm.tsx], lines 13-144), of what its render reads
    from the errors object (lines 170-288), and of the three wrappers of the
    module [@/lib/firebase] that it imports (lines 352-378 of the same
    source file), followed by the properties of the form's validation and
    submission logic.

    - a JavaScript string is the list of its UTF-16 code units;
    - the [errors] object ([Partial<FormData>]) is a finite map from property
      names to messages, so that a key mapped to the empty string and an
      absent key are different objects;
    - the React state of the component is a store; a handler reads the values
      of the render it was created in and writes the store through the
      setters; a handler is first taken as run to its end, and the
      transition system at the end of the definitions splits a submission
      at its [await], so that other handlers run while it is pending;
    - the identity provider and the toast sink are an environment that
      answers each call by returning a value or by throwing; a thrown
      value is [null] or [undefined], an [Error] object, or another
      value. *)

From Stdlib Require Import NArith Ascii String List Bool Lia.
From stdpp Require Import gmap strings list fin_maps.

Set Default Proof Using "Type".
Open Scope string_scope.
Open Scope list_scope.
Open Scope nat_scope.

(** ** JavaScript strings *)

Module JS.

(** A UTF-16 code unit (a value below 65536). *)
Definition code_unit := N.

Definition jsstring := list code_unit.

(** A string literal of the source (all of them are ASCII). *)
Definition lit (s : string) : jsstring :=
  map N_of_ascii (list_ascii_of_string s).

(** [!s] for a string [s]: only the empty string is falsy. *)
Definition is_empty (s : jsstring) : bool :=
  match s with
  | [] => true
  | _ :: _ => false
  end.

(** Truthiness of a value that is a string, [null] or [undefined]. *)
Definition truthy (v : option jsstring) : bool :=
  match v with
  | Some s => negb (is_empty s)
  | None => false
  end.

(** [a !== b] on strings compares the code units. *)
Definition strict_neq (a b : jsstring) : bool :=
  negb (bool_decide (a = b)).

(** The class [\s] of ECMAScript regular expressions (WhiteSpace and
    LineTerminator code points). *)
Definition is_whitespace (c : code_unit) : bool :=
  ((9 <=? c) && (c <=? 13) || (c =? 32) || (c =? 160) || (c =? 5760)
   || (8192 <=? c) && (c <=? 8202) || (c =? 8232) || (c =? 8233)
   || (c =? 8239) || (c =? 8287) || (c =? 12288) || (c =? 65279))%N.

(** The class [\S]. *)
Definition non_whitespace (c : code_unit) : bool := negb (is_whitespace c).

(** The empty string literal. *)
Definition empty_string : jsstring := [].

(** A literal character of a pattern. *)
Definition is_unit (k : code_unit) (c : code_unit) : bool := (c =? k)%N.

End JS.

Import JS.

(** ** Regular expressions, as far as the source uses them *)

Module Regex.

Inductive regex : Type :=
| Class (p : code_unit -> bool)      (* a class or a literal: one code unit *)
| Seq (r1 r2 : regex)                (* r1 r2 *)
| Plus (r : regex).                  (* r+ *)

(** The backtracking matcher: [ends r s] lists, in the order in which the
    engine tries them, the rests of [s] after each way of matching [r] at
    the start of [s]. A repetition takes as many rounds as it can before
    it gives one back; each round consumes a code unit, so [length s]
    rounds are enough. *)
Fixpoint plus_ends (step : jsstring -> list jsstring) (fuel : nat)
         (s : jsstring) : list jsstring :=
  match fuel with
  | O => []
  | S n => flat_map (fun t => plus_ends step n t ++ [t]) (step s)
  end.

Fixpoint ends (r : regex) (s : jsstring) : list jsstring :=
  match r with
  | Class p =>
      match s with
      | c :: t => if p c then [t] else []
      | [] => []
      end
  | Seq r1 r2 => flat_map (ends r2) (ends r1 s)
  | Plus r1 => plus_ends (ends r1) (length s) s
  end.

(** A match starting at the first code unit. *)
Definition match_here (r : regex) (s : jsstring) : bool :=
  negb (bool_decide (ends r s = [])).

(** A match of the whole string, as [/^r$/.test(s)] would find. *)
Definition match_whole (r : regex) (s : jsstring) : bool :=
  existsb is_empty (ends r s).

(** [r.test(s)] for a regex without flags: a match starting anywhere. *)
Fixpoint test (r : regex) (s : jsstring) : bool :=
  match_here r s ||
  match s with
  | [] => false
  | _ :: t => test r t
  end.

(** The language of a regex. *)
Inductive in_lang : regex -> jsstring -> Prop :=
| in_class p c : p c = true -> in_lang (Class p) [c]
| in_seq r1 r2 u v :
    in_lang r1 u -> in_lang r2 v -> in_lang (Seq r1 r2) (u ++ v)
| in_plus_one r u : in_lang r u -> in_lang (Plus r) u
| in_plus_more r u v :
    in_lang r u -> in_lang (Plus r) v -> in_lang (Plus r) (u ++ v).

End Regex.

Import Regex.

(** [/\S+@\S+\.\S+/] *)
Definition email_regex : regex :=
  Seq (Plus (Class non_whitespace))
      (Seq (Class (is_unit 64%N))
           (Seq (Plus (Class non_whitespace))
                (Seq (Class (is_unit 46%N))
                     (Plus (Class non_whitespace))))).

(** ** The data of the component *)

(** [interface FormData]. *)
Record FormData : Type := mkFormData {
  name : jsstring;
  email : jsstring;
  password : jsstring;
  confirmPassword : jsstring
}.

(** [keyof FormData]: the [name] attribute of the four inputs. *)
Inductive keyof_FormData : Type :=
| k_name
| k_email
| k_password
| k_confirmPassword.

Definition key (k : keyof_FormData) : string :=
  match k with
  | k_name => "name"
  | k_email => "email"
  | k_password => "password"
  | k_confirmPassword => "confirmPassword"
  end.

(** [prev[k]] and [{ ...prev, [k]: value }] on a [FormData]. *)
Definition get_field (k : keyof_FormData) (d : FormData) : jsstring :=
  match k with
  | k_name => name d
  | k_email => email d
  | k_password => password d
  | k_confirmPassword => confirmPassword d
  end.

Definition set_field (k : keyof_FormData) (value : jsstring) (d : FormData)
  : FormData :=
  match k with
  | k_name => mkFormData value (email d) (password d) (confirmPassword d)
  | k_email => mkFormData (name d) value (password d) (confirmPassword d)
  | k_password => mkFormData (name d) (email d) value (confirmPassword d)
  | k_confirmPassword => mkFormData (name d) (email d) (password d) value
  end.

(** The six [useState] cells of the component. [errors] is a
    [Partial<FormData>]: an object with any subset of the four keys. *)
Record State : Type := mkState {
  isLogin : bool;
  formData : FormData;
  showPassword : bool;
  showConfirmPassword : bool;
  loading : bool;
  errors : gmap string jsstring
}.

(** The arguments of [useState]. *)
Definition initial_state : State :=
  {| isLogin := true;
     formData := mkFormData [] [] [] [];
     showPassword := false;
     showConfirmPassword := false;
     loading := false;
     errors := ∅ |}.

(** The argument of [toast]. A call that gives no [variant] is [Default]. *)
Inductive Variant : Type := Default | Destructive.

Record Toast : Type := mkToast {
  title : jsstring;
  description : option jsstring;
  variant : Variant
}.

(** What a call of the identity provider resolves to. [error] is a message
    or [null]. *)
Inductive User : Type := mkUser (uid : jsstring).

Record AuthResult : Type := mkAuthResult {
  user : option User;
  error : option jsstring
}.

Record ResetResult : Type := mkResetResult {
  success : bool;
  reset_error : option jsstring
}.

(** An [Error] object, with its message. *)
Record Error : Type := mkError { message : jsstring }.

(** A thrown value, or what a promise rejects with. [catch (error: any)]
    takes any value: [null] or [undefined], an [Error] object (what the
    provider's SDK rejects with), or another value, on which [.message]
    reads [undefined]. (A [message] that is not a string is not
    modelled.) *)
Inductive thrown : Type :=
| Nullish
| ErrorObject (e : Error)
| OtherValue.

Coercion ErrorObject : Error >-> thrown.

(** How an awaited call or a statement completes. *)
Inductive completion (A : Type) : Type :=
| Normal (a : A)
| Throw (e : thrown).
Arguments Normal {A} a.
Arguments Throw {A} e.

(** The [TypeError] of reading a property of [null] or [undefined]. Its
    text is the engine's (here the one of V8 for [null]); no handler reads
    it. *)
Definition TypeError_of_nullish : Error :=
  mkError (lit "Cannot read properties of null (reading 'message')").

(** [error.message] in a [catch (error: any)] block. *)
Definition read_message (error : thrown) : completion (option jsstring) :=
  match error with
  | Nullish => Throw TypeError_of_nullish
  | ErrorObject e => Normal (Some (message e))
  | OtherValue => Normal None
  end.

(** What a handler does that can be seen from outside the component, and
    each call of [setLoading]. *)
Inductive event : Type :=
| CallSignIn (email password : jsstring)
| CallSignUp (email password name : jsstring)
| CallResetPassword (email : jsstring)
| CallToast (t : Toast)
| SetLoading (b : bool).

(** The imports of the component: [signIn], [signUp], [resetPassword] of
    [@/lib/firebase] and [toast] of [@/hooks/use-toast]. Each answers a call
    by returning or by throwing. *)
Record World : Type := mkWorld {
  signIn : jsstring -> jsstring -> completion AuthResult;
  signUp : jsstring -> jsstring -> jsstring -> completion AuthResult;
  resetPassword : jsstring -> completion ResetResult;
  toast : Toast -> completion unit
}.

(** ** Handlers as computations over the store and the trace *)

Definition M (A : Type) : Type :=
  State -> list event -> completion A * State * list event.

#[export] Instance M_ret : MRet M :=
  fun A a st tr => (Normal a, st, tr).

#[export] Instance M_bind : MBind M :=
  fun A B f m st tr =>
    match m st tr with
    | (Normal a, st', tr') => f a st' tr'
    | (Throw e, st', tr') => (Throw e, st', tr')
    end.

(** [try { body } catch (e) { handler }] *)
Definition try_catch {A} (body : M A) (handler : thrown -> M A) : M A :=
  fun st tr =>
    match body st tr with
    | (Throw e, st', tr') => handler e st' tr'
    | done => done
    end.

(** [try { body } finally { final }] *)
Definition try_finally {A} (body : M A) (final : M unit) : M A :=
  fun st tr =>
    match body st tr with
    | (c, st', tr') =>
        match final st' tr' with
        | (Normal _, st'', tr'') => (c, st'', tr'')
        | (Throw e, st'', tr'') => (Throw e, st'', tr'')
        end
    end.

(** A state setter called with a value or with an updater function. *)
Definition modify (f : State -> State) : M unit :=
  fun st tr => (Normal tt, f st, tr).

Definition setIsLogin (b : bool) : M unit :=
  modify (fun st => mkState b (formData st) (showPassword st)
                            (showConfirmPassword st) (loading st) (errors st)).

Definition setFormData (f : FormData -> FormData) : M unit :=
  modify (fun st => mkState (isLogin st) (f (formData st)) (showPassword st)
                            (showConfirmPassword st) (loading st) (errors st)).

Definition setShowPassword (b : bool) : M unit :=
  modify (fun st => mkState (isLogin st) (formData st) b
                            (showConfirmPassword st) (loading st) (errors st)).

Definition setShowConfirmPassword (b : bool) : M unit :=
  modify (fun st => mkState (isLogin st) (formData st) (showPassword st)
                            b (loading st) (errors st)).

Definition setErrors (f : gmap string jsstring -> gmap string jsstring)
  : M unit :=
  modify (fun st => mkState (isLogin st) (formData st) (showPassword st)
                            (showConfirmPassword st) (loading st)
                            (f (errors st))).

Definition setLoading (b : bool) : M unit :=
  fun st tr =>
    (Normal tt,
     mkState (isLogin st) (formData st) (showPassword st)
             (showConfirmPassword st) b (errors st),
     tr ++ [SetLoading b]).

(** An awaited call of an import: the call is recorded, the environment
    gives its completion. *)
Definition call {A} (ev : event) (c : completion A) : M A :=
  fun st tr => (c, st, tr ++ [ev]).

Section Handlers.

Variable w : World.

(** The calls of the four imports. *)
Definition await_signIn (email password : jsstring) : M AuthResult :=
  call (CallSignIn email password) (signIn w email password).

Definition await_signUp (email password name : jsstring) : M AuthResult :=
  call (CallSignUp email password name) (signUp w email password name).

Definition await_resetPassword (email : jsstring) : M ResetResult :=
  call (CallResetPassword email) (resetPassword w email).

Definition call_toast (t : Toast) : M unit :=
  call (CallToast t) (toast w t).

(** The render the handlers were created in: they read [isLogin],
    [formData] and [errors] from it. *)
Variable r : State.

(** [validateForm], lines 26-54. *)
Definition newErrors : gmap string jsstring :=
  let e0 : gmap string jsstring := ∅ in
  let e1 :=
    if is_empty (email (formData r)) then
      <["email" := lit "Email is required"]> e0
    else if negb (test email_regex (email (formData r))) then
      <["email" := lit "Email is invalid"]> e0
    else e0 in
  let e2 :=
    if is_empty (password (formData r)) then
      <["password" := lit "Password is required"]> e1
    else if length (password (formData r)) <? 6 then
      <["password" := lit "Password must be at least 6 characters"]> e1
    else e1 in
  if negb (isLogin r) then
    let e3 :=
      if is_empty (name (formData r)) then
        <["name" := lit "Name is required"]> e2
      else e2 in
    if is_empty (confirmPassword (formData r)) then
      <["confirmPassword" := lit "Please confirm your password"]> e3
    else if strict_neq (password (formData r))
                       (confirmPassword (formData r)) then
      <["confirmPassword" := lit "Passwords do not match"]> e3
    else e3
  else e2.

Definition validateForm : M bool :=
  setErrors (fun _ => newErrors);;
  mret (size newErrors =? 0).

(** [handleSubmit], lines 56-102. [e.preventDefault()] acts on the DOM
    event only. *)
Definition handleSubmit : M unit :=
  ok ← validateForm;
  if negb ok then mret tt
  else
    setLoading true;;
    try_finally
      (try_catch
         (if isLogin r then
            res ← await_signIn (email (formData r)) (password (formData r));
            if truthy (error res) then
              call_toast
                {| title := lit "Login Failed";
                   description := error res;
                   variant := Destructive |}
            else
              call_toast
                {| title := lit "Welcome back!";
                   description :=
                     Some (lit "You have successfully logged in.");
                   variant := Default |}
          else
            res ← await_signUp (email (formData r)) (password (formData r))
                               (name (formData r));
            if truthy (error res) then
              call_toast
                {| title := lit "Registration Failed";
                   description := error res;
                   variant := Destructive |}
            else
              call_toast
                {| title := lit "Account Created!";
                   description :=
                     Some (lit "Your account has been created successfully.");
                   variant := Default |})
         (fun _ =>
            call_toast
              {| title := lit "Error";
                 description :=
                   Some (lit "Something went wrong. Please try again.");
                 variant := Destructive |}))
      (setLoading false).

(** [handleForgotPassword], lines 104-127. *)
Definition handleForgotPassword : M unit :=
  if is_empty (email (formData r)) then
    call_toast
      {| title := lit "Email Required";
         description := Some (lit "Please enter your email address first.");
         variant := Destructive |}
  else
    res ← await_resetPassword (email (formData r));
    if success res then
      call_toast
        {| title := lit "Reset Email Sent";
           description :=
             Some (lit "Check your email for password reset instructions.");
           variant := Default |}
    else
      call_toast
        {| title := lit "Reset Failed";
           description := reset_error res;
           variant := Destructive |}.

(** [handleInputChange], lines 129-136, for the event of an input whose
    [name] attribute is [k] and whose new value is [value]. *)
Definition handleInputChange (k : keyof_FormData) (value : jsstring)
  : M unit :=
  setFormData (fun prev => set_field k value prev);;
  if truthy (errors r !! key k) then
    setErrors (fun prev => <[key k := empty_string]> prev)
  else mret tt.

(** [toggleForm], lines 138-144. *)
Definition toggleForm : M unit :=
  setIsLogin (negb (isLogin r));;
  setFormData (fun _ => mkFormData [] [] [] []);;
  setErrors (fun _ => ∅);;
  setShowPassword false;;
  setShowConfirmPassword false.

End Handlers.

(** A handler runs in the render of the current store, from an empty
    trace. *)
Definition run {A} (h : State -> M A) (st : State)
  : completion A * State * list event :=
  h st st [].

Definition completion_of {A} (x : completion A * State * list event)
  : completion A := x.1.1.
Definition state_of {A} (x : completion A * State * list event) : State :=
  x.1.2.
Definition trace_of {A} (x : completion A * State * list event)
  : list event := x.2.

(** ** What the render reads from [errors], lines 186-195 and the like *)

Definition normal_border (k : keyof_FormData) : string :=
  match k with
  | k_name => "border-purple-200"
  | k_email => "border-blue-200"
  | k_password => "border-emerald-200"
  | k_confirmPassword => "border-amber-200"
  end.

(** [errors.k ? 'border-rose-300 bg-rose-50/50' : '...'] *)
Definition border_class (errs : gmap string jsstring) (k : keyof_FormData)
  : string :=
  if truthy (errs !! key k) then "border-rose-300 bg-rose-50/50"
  else normal_border k.

(** [errors.k && <p ...>{errors.k}</p>]: the text of the paragraph, if one
    is rendered (React renders nothing for [''] and [undefined]). *)
Definition error_paragraph (errs : gmap string jsstring) (k : keyof_FormData)
  : option jsstring :=
  if truthy (errs !! key k) then errs !! key k else None.

(** ** The wrappers of [src/lib/firebase.ts], lines 352-378 *)

(** The functions of the provider's SDK that the wrappers call. *)
Record Sdk : Type := mkSdk {
  createUserWithEmailAndPassword : jsstring -> jsstring -> completion User;
  updateProfile : User -> jsstring -> completion unit;
  signInWithEmailAndPassword : jsstring -> jsstring -> completion User;
  sendPasswordResetEmail : jsstring -> completion unit
}.

Module Firebase.
Section Wrappers.

Variable sdk : Sdk.

(** [return { user: null, error: error.message }] in a [catch] block. *)
Definition caught_auth (error : thrown) : completion AuthResult :=
  match read_message error with
  | Normal m => Normal {| user := None; error := m |}
  | Throw e => Throw e
  end.

Definition signUp (email password name : jsstring)
  : completion AuthResult :=
  match createUserWithEmailAndPassword sdk email password with
  | Normal u =>
      match updateProfile sdk u name with
      | Normal _ => Normal {| user := Some u; error := None |}
      | Throw e => caught_auth e
      end
  | Throw e => caught_auth e
  end.

Definition signIn (email password : jsstring) : completion AuthResult :=
  match signInWithEmailAndPassword sdk email password with
  | Normal u => Normal {| user := Some u; error := None |}
  | Throw e => caught_auth e
  end.

Definition resetPassword (email : jsstring) : completion ResetResult :=
  match sendPasswordResetEmail sdk email with
  | Normal _ => Normal {| success := true; reset_error := None |}
  | Throw e =>
      match read_message e with
      | Normal m => Normal {| success := false; reset_error := m |}
      | Throw e' => Throw e'
      end
  end.

End Wrappers.
End Firebase.

(** The component linked with the shipped wrappers. *)
Definition shipped_world (sdk : Sdk) (sink : Toast -> completion unit)
  : World :=
  {| signIn := Firebase.signIn sdk;
     signUp := Firebase.signUp sdk;
     resetPassword := Firebase.resetPassword sdk;
     toast := sink |}.

(** ** Projections of a trace *)

Definition is_provider_call (ev : event) : bool :=
  match ev with
  | CallSignIn _ _ | CallSignUp _ _ _ | CallResetPassword _ => true
  | _ => false
  end.

(** The calls of the identity provider, in order. *)
Definition provider_calls (tr : list event) : list event :=
  List.filter is_provider_call tr.

(** The notifications, in order. *)
Fixpoint toasts (tr : list event) : list Toast :=
  match tr with
  | [] => []
  | CallToast t :: tr' => t :: toasts tr'
  | _ :: tr' => toasts tr'
  end.

(** The values given to [setLoading], in order. *)
Fixpoint loading_writes (tr : list event) : list bool :=
  match tr with
  | [] => []
  | SetLoading b :: tr' => b :: loading_writes tr'
  | _ :: tr' => loading_writes tr'
  end.

(** ** The shape the email rule is worded with *)

(** One or more code units, none of them white space. *)
Definition word (u : jsstring) : Prop :=
  u ≠ [] ∧ Forall (fun c => non_whitespace c = true) u.

(** word, '@', word, '.', word: the whole string has the shape. *)
Definition email_shape (s : jsstring) : Prop :=
  ∃ a b c : jsstring,
    s = a ++ [64%N] ++ b ++ [46%N] ++ c ∧ word a ∧ word b ∧ word c.

(** Some part of the string has the shape. *)
Definition contains_email_shape (s : jsstring) : Prop :=
  ∃ pre u post : jsstring, s = pre ++ u ++ post ∧ email_shape u.

(** ** The rules of validation *)

(** The store with another [errors] object. *)
Definition with_errors (e : gmap string jsstring) (st : State) : State :=
  mkState (isLogin st) (formData st) (showPassword st)
          (showConfirmPassword st) (loading st) e.

(** email, in the words of the specification: not empty, and of the shape
    word, '@', word, '.', word. *)
Definition email_rule_as_worded (d : FormData) : Prop :=
  email d ≠ [] ∧ email_shape (email d).

(** email, as amended: not empty, and some part of it has the shape. *)
Definition email_rule (d : FormData) : Prop :=
  email d ≠ [] ∧ contains_email_shape (email d).

(** password: not empty, and of length 6 at least. *)
Definition password_rule (d : FormData) : Prop :=
  password d ≠ [] ∧ 6 ≤ length (password d).

(** name: not empty. *)
Definition name_rule (d : FormData) : Prop :=
  name d ≠ [].

(** confirmPassword: not empty, and equal to the password. *)
Definition confirmPassword_rule (d : FormData) : Prop :=
  confirmPassword d ≠ [] ∧ confirmPassword d = password d.

(** The rules of the active mode: email and password always, name and
    confirmPassword in Register mode; first with the email rule as it is
    worded, then with the email rule as amended. *)
Definition rules_as_worded (login : bool) (d : FormData) : Prop :=
  email_rule_as_worded d ∧ password_rule d ∧
  (login = false → name_rule d ∧ confirmPassword_rule d).

Definition rules_satisfied (login : bool) (d : FormData) : Prop :=
  email_rule d ∧ password_rule d ∧
  (login = false → name_rule d ∧ confirmPassword_rule d).

(** The keys of the fields the Login mode does not show. *)
Definition register_only_keys : list string := ["name"; "confirmPassword"].

Definition all_keys : gset string :=
  {[ "name"; "email"; "password"; "confirmPassword" ]}.

(** ** Sample stores and environments *)

Module Samples.

(** A store in Login mode with the given email and password. *)
Definition login_state (e p : string) : State :=
  mkState true (mkFormData [] (lit e) (lit p) []) false false false ∅.

(** A store in Register mode with the four fields filled in. *)
Definition register_state (n e p c : string) : State :=
  mkState false (mkFormData (lit n) (lit e) (lit p) (lit c))
          false false false ∅.

Definition sink_ok : Toast -> completion unit := fun _ => Normal tt.

Definition sink_broken : Toast -> completion unit :=
  fun _ => Throw (mkError (lit "toast failed")).

Definition some_user : User := mkUser (lit "uid-1").

(** Every call of the provider succeeds. *)
Definition world_ok : World :=
  {| signIn := fun _ _ => Normal (mkAuthResult (Some some_user) None);
     signUp := fun _ _ _ => Normal (mkAuthResult (Some some_user) None);
     resetPassword := fun _ => Normal (mkResetResult true None);
     toast := sink_ok |}.

(** Every call of the provider returns a structured error. *)
Definition world_rejecting (msg : string) : World :=
  {| signIn := fun _ _ => Normal (mkAuthResult None (Some (lit msg)));
     signUp := fun _ _ _ => Normal (mkAuthResult None (Some (lit msg)));
     resetPassword :=
       fun _ => Normal (mkResetResult false (Some (lit msg)));
     toast := sink_ok |}.

(** Every call of the provider returns a structured error, and the sink
    throws on every notification. *)
Definition world_rejecting_broken_sink (msg : string) : World :=
  {| signIn := fun _ _ => Normal (mkAuthResult None (Some (lit msg)));
     signUp := fun _ _ _ => Normal (mkAuthResult None (Some (lit msg)));
     resetPassword :=
       fun _ => Normal (mkResetResult false (Some (lit msg)));
     toast := sink_broken |}.

(** Every call of the provider throws. *)
Definition world_throwing (sink : Toast -> completion unit) : World :=
  {| signIn := fun _ _ => Throw (mkError (lit "network"));
     signUp := fun _ _ _ => Throw (mkError (lit "network"));
     resetPassword := fun _ => Throw (mkError (lit "network"));
     toast := sink |}.

(** An SDK whose every function throws. *)
Definition sdk_down : Sdk :=
  {| createUserWithEmailAndPassword :=
       fun _ _ => Throw (mkError (lit "auth/network-request-failed"));
     updateProfile :=
       fun _ _ => Throw (mkError (lit "auth/network-request-failed"));
     signInWithEmailAndPassword :=
       fun _ _ => Throw (mkError (lit "auth/network-request-failed"));
     sendPasswordResetEmail :=
       fun _ => Throw (mkError (lit "auth/network-request-failed")) |}.

(** An SDK that creates the account and signs in, and then fails to
    update the profile. *)
Definition sdk_profile_fails : Sdk :=
  {| createUserWithEmailAndPassword := fun _ _ => Normal some_user;
     updateProfile :=
       fun _ _ => Throw (mkError (lit "auth/network-request-failed"));
     signInWithEmailAndPassword := fun _ _ => Normal some_user;
     sendPasswordResetEmail := fun _ => Normal tt |}.

(** An SDK whose faults carry an empty message. *)
Definition sdk_silent_fault : Sdk :=
  {| createUserWithEmailAndPassword := fun _ _ => Throw (mkError []);
     updateProfile := fun _ _ => Throw (mkError []);
     signInWithEmailAndPassword := fun _ _ => Throw (mkError []);
     sendPasswordResetEmail := fun _ => Throw (mkError []) |}.

(** An SDK whose promises reject with [null]. *)
Definition sdk_rejecting_null : Sdk :=
  {| createUserWithEmailAndPassword := fun _ _ => Throw Nullish;
     updateProfile := fun _ _ => Throw Nullish;
     signInWithEmailAndPassword := fun _ _ => Throw Nullish;
     sendPasswordResetEmail := fun _ => Throw Nullish |}.

End Samples.

(** ** The notifications of the source, by name *)

Module Notify.

Definition login_failed (msg : option jsstring) : Toast :=
  {| title := lit "Login Failed"; description := msg;
     variant := Destructive |}.

Definition welcome_back : Toast :=
  {| title := lit "Welcome back!";
     description := Some (lit "You have successfully logged in.");
     variant := Default |}.

Definition registration_failed (msg : option jsstring) : Toast :=
  {| title := lit "Registration Failed"; description := msg;
     variant := Destructive |}.

Definition account_created : Toast :=
  {| title := lit "Account Created!";
     description :=
       Some (lit "Your account has been created successfully.");
     variant := Default |}.

(** The generic fallback. *)
Definition something_went_wrong : Toast :=
  {| title := lit "Error";
     description := Some (lit "Something went wrong. Please try again.");
     variant := Destructive |}.

Definition email_required : Toast :=
  {| title := lit "Email Required";
     description := Some (lit "Please enter your email address first.");
     variant := Destructive |}.

Definition reset_email_sent : Toast :=
  {| title := lit "Reset Email Sent";
     description :=
       Some (lit "Check your email for password reset instructions.");
     variant := Default |}.

Definition reset_failed (msg : option jsstring) : Toast :=
  {| title := lit "Reset Failed"; description := msg;
     variant := Destructive |}.

End Notify.

(** ** The store after a synchronous handler *)

(** After the change event of the input named [k] with the value [value]. *)
Definition after_input (st : State) (k : keyof_FormData) (value : jsstring)
  : State :=
  state_of (run (fun r => handleInputChange r k value) st).

(** After a click on the toggle. *)
Definition after_toggle (st : State) : State :=
  state_of (run toggleForm st).


(** The SDK part of [signUp] ends with the fault [v]: the creation of the
    account rejects with it, or the update of the profile does. *)
Definition sdk_signUp_fault (sdk : Sdk) (e p n : jsstring) (v : thrown)
  : Prop :=
  createUserWithEmailAndPassword sdk e p = Throw v ∨
  ∃ u, createUserWithEmailAndPassword sdk e p = Normal u ∧
       updateProfile sdk u n = Throw v.

(** In the submission of the render [r], the SDK rejects with [null] or
    [undefined]. *)
Definition sdk_rejects_nullish (sdk : Sdk) (r : State) : Prop :=
  if isLogin r then
    signInWithEmailAndPassword sdk (email (formData r))
                               (password (formData r)) = Throw Nullish
  else
    sdk_signUp_fault sdk (email (formData r)) (password (formData r))
                     (name (formData r)) Nullish.

(** The completion of the provider call that [handleSubmit] awaits in the
    render [r], lines 65 and 79. *)
Definition provider_answer (w : World) (r : State)
  : completion AuthResult :=
  if isLogin r then
    signIn w (email (formData r)) (password (formData r))
  else
    signUp w (email (formData r)) (password (formData r))
           (name (formData r)).

(** ** The render, lines 146-329 *)

#[export] Instance keyof_FormData_eq_dec : EqDecision keyof_FormData.
Proof. solve_decision. Defined.

(** The click handlers of the two reveal buttons, lines 244 and 277. *)
Definition toggleShowPassword (r : State) : M unit :=
  setShowPassword (negb (showPassword r)).

Definition toggleShowConfirmPassword (r : State) : M unit :=
  setShowConfirmPassword (negb (showConfirmPassword r)).

(** An [<input>] with the paragraph under it. *)
Record InputView : Type := mkInputView {
  input_name : keyof_FormData;
  input_type : string;
  input_value : jsstring;
  input_border : string;
  input_message : option jsstring
}.

Definition render_input (st : State) (k : keyof_FormData) (type : string)
  : InputView :=
  {| input_name := k;
     input_type := type;
     input_value := get_field k (formData st);
     input_border := border_class (errors st) k;
     input_message := error_paragraph (errors st) k |}.

(** What the component returns, without the decoration. *)
Record View : Type := mkView {
  heading : string;
  inputs : list InputView;
  forgot_password : bool;
  submit_disabled : bool;
  submit_spinner : bool;
  submit_label : string;
  toggle_label : string
}.

Definition render (st : State) : View :=
  {| heading := if isLogin st then "Welcome back" else "Join us today";
     inputs :=
       (if negb (isLogin st) then [render_input st k_name "text"] else [])
       ++ [render_input st k_email "email";
           render_input st k_password
             (if showPassword st then "text" else "password")]
       ++ (if negb (isLogin st) then
             [render_input st k_confirmPassword
                (if showConfirmPassword st then "text" else "password")]
           else []);
     forgot_password := isLogin st;
     submit_disabled := loading st;
     submit_spinner := loading st;
     submit_label :=
       if loading st then "Please wait..."
       else if isLogin st then "Sign In" else "Create Account";
     toggle_label := if isLogin st then "Sign up" else "Sign in" |}.

(** ** The component as a transition system *)

(** What the user can do to a render. *)
Inductive action : Type :=
| Submit
| ForgotPassword
| Change (k : keyof_FormData) (value : jsstring)
| ToggleForm
| ToggleShowPassword
| ToggleShowConfirmPassword.

Definition handler (w : World) (a : action) : State -> M unit :=
  match a with
  | Submit => handleSubmit w
  | ForgotPassword => handleForgotPassword w
  | Change k value => fun r => handleInputChange r k value
  | ToggleForm => toggleForm
  | ToggleShowPassword => toggleShowPassword
  | ToggleShowConfirmPassword => toggleShowConfirmPassword
  end.

(** The control of the action is in the render: an input for its change
    event, the link for the password reset, the button of the confirm
    field for its reveal toggle. The form, the password field and the
    toggle are always there. *)
Definition offered (st : State) (a : action) : bool :=
  match a with
  | Change k _ => bool_decide (k ∈ map input_name (inputs (render st)))
  | ForgotPassword => forgot_password (render st)
  | ToggleShowConfirmPassword =>
      bool_decide (k_confirmPassword ∈ map input_name (inputs (render st)))
  | Submit | ToggleForm | ToggleShowPassword => true
  end.

(** The store after the handler of an action, run to its end in the
    environment [w]. *)
Definition step (w : World) (a : action) (st : State) : State :=
  state_of (run (handler w a) st).

(** *** A submission in two halves

    [handleSubmit] is an [async] function: it runs up to its [await], and
    the rest runs when the awaited call settles. Other handlers run in
    between, on a store whose loading cell is true. *)

(** The two halves of [call]: the call is made, and later it settles. *)
Definition call_made (ev : event) : M unit :=
  fun st tr => (Normal tt, st, tr ++ [ev]).

Definition call_settled {A} (c : completion A) : M A :=
  fun st tr => (c, st, tr).

(** [handleSubmit] up to its [await], lines 57-61 and the call of line 65
    or 79. It returns whether a call is now awaited. *)
Definition handleSubmit_begin (r : State) : M bool :=
  ok ← validateForm r;
  if negb ok then mret false
  else
    setLoading true;;
    call_made (if isLogin r then
                 CallSignIn (email (formData r)) (password (formData r))
               else
                 CallSignUp (email (formData r)) (password (formData r))
                            (name (formData r)));;
    mret true.

(** [handleSubmit] from its [await] on, lines 65-101, when the awaited
    call completes with [answer]: the rest of the [try] block, then the
    [catch] and [finally] blocks. [r] is the render the submission was
    started in. *)
Definition handleSubmit_resume (w : World) (r : State)
    (answer : completion AuthResult) : M unit :=
  try_finally
    (try_catch
       (res ← call_settled answer;
        if isLogin r then
          if truthy (error res) then
            call_toast w (Notify.login_failed (error res))
          else call_toast w Notify.welcome_back
        else
          if truthy (error res) then
            call_toast w (Notify.registration_failed (error res))
          else call_toast w Notify.account_created)
       (fun _ => call_toast w Notify.something_went_wrong))
    (setLoading false).

(** The stores the component can be in when no handler is running,
    together with the renders of the submissions that await the provider.
    The environment answers anew at every step, and an awaited call
    settles at any time, in any order. ([handleForgotPassword] awaits too,
    but it writes nothing before or after, so it is taken in one step.) *)
Inductive reachable_with : State -> list State -> Prop :=
| reachable_initial : reachable_with initial_state []
| reachable_step w a st pending :
    reachable_with st pending -> a ≠ Submit -> offered st a = true ->
    reachable_with (step w a st) pending
| reachable_submit st pending b :
    reachable_with st pending ->
    completion_of (run handleSubmit_begin st) = Normal b ->
    reachable_with (state_of (run handleSubmit_begin st))
                   (if b then st :: pending else pending)
| reachable_settle w answer r st pending1 pending2 :
    reachable_with st (pending1 ++ r :: pending2) ->
    reachable_with (state_of (handleSubmit_resume w r answer st []))
                   (pending1 ++ pending2).

Definition reachable (st : State) : Prop :=
  ∃ pending, reachable_with st pending.

(** The store after [validateForm] alone. *)
Definition validated (st : State) : State :=
  state_of (run validateForm st).

(** Three facts that every step keeps: the keys of the errors object name
    fields of the current mode, the loading cell is false when no
    submission awaits the provider, and the fields that the Login mode
    hides are empty in it. *)
Definition store_invariant (st : State) (pending : list State) : Prop :=
  (∀ j, j ∈ dom (errors st) →
        ∃ k, j = key k ∧ (isLogin st = true → k = k_email ∨ k = k_password)) ∧
  (pending = [] → loading st = false) ∧
  (isLogin st = true →
   name (formData st) = [] ∧ confirmPassword (formData st) = []).

(** ** Sample sessions *)

Module Scenarios.

(** The user types a bad email and submits. *)
Definition bad_login : State :=
  step Samples.world_ok Submit
    (step Samples.world_ok (Change k_email (lit "ada")) initial_state).

(** The user fills in the login form and submits while the provider and
    the sink are both failing. *)
Definition failed_login : State :=
  step (Samples.world_throwing Samples.sink_broken) Submit
    (step Samples.world_ok (Change k_password (lit "secret1"))
       (step Samples.world_ok (Change k_email (lit "a@b.c")) initial_state)).

(** The user goes to Register mode, types a name, and comes back. *)
Definition back_to_login : State :=
  step Samples.world_ok ToggleForm
    (step Samples.world_ok (Change k_name (lit "Ada"))
       (step Samples.world_ok ToggleForm initial_state)).

(** The user fills in the login form and submits; the provider has not
    answered yet. *)
Definition filled_login : State :=
  step Samples.world_ok (Change k_password (lit "secret1"))
    (step Samples.world_ok (Change k_email (lit "a@b.c")) initial_state).

Definition awaiting_login : State :=
  state_of (run handleSubmit_begin filled_login).

End Scenarios.

(** * Properties *)

(** ** The matcher computes the language *)

Section MatcherFacts.

Lemma in_lang_nonempty r u : in_lang r u → u ≠ [].
Proof.
  induction 1 as [p c Hp|r1 r2 u v _ IHu _ _|r u _ IH|r u v _ IHu _ _];
    try done; by destruct u.
Qed.

Lemma plus_ends_mono step fuel fuel' s t :
  fuel ≤ fuel' → In t (plus_ends step fuel s) → In t (plus_ends step fuel' s).
Proof.
  revert fuel' s t.
  induction fuel as [|n IH]; intros fuel' s t Hle Hin; [done|].
  destruct fuel' as [|m]; [lia|].
  simpl in *. apply in_flat_map in Hin as (x & Hx & Hin).
  apply in_flat_map. exists x. split; [done|].
  apply in_app_iff in Hin as [Hin|Hin]; apply in_app_iff; [left|by right].
  apply IH; [lia|done].
Qed.

Lemma plus_ends_sound (P : jsstring → Prop) step :
  (∀ s t, In t (step s) → ∃ u, s = u ++ t ∧ P u) →
  ∀ fuel s t, In t (plus_ends step fuel s) →
    ∃ us, us ≠ [] ∧ Forall P us ∧ s = concat us ++ t.
Proof.
  intros Hstep. induction fuel as [|n IH]; intros s t Hin; [done|].
  simpl in Hin. apply in_flat_map in Hin as (x & Hx & Hin).
  destruct (Hstep _ _ Hx) as (u & -> & Hu).
  apply in_app_iff in Hin as [Hin|Hin].
  - destruct (IH _ _ Hin) as (us & _ & Hus & ->).
    exists (u :: us). split; [done|]. split; [by constructor|].
    simpl. by rewrite <- app_assoc.
  - destruct Hin as [<-|[]]. exists [u]. split; [done|].
    split; [by repeat constructor|]. simpl. by rewrite app_nil_r.
Qed.

Lemma in_lang_plus_concat r us :
  us ≠ [] → Forall (in_lang r) us → in_lang (Plus r) (concat us).
Proof.
  intros Hne Hall. induction Hall as [|u us Hu Hus IH]; [done|].
  destruct us as [|u' us'].
  - simpl. rewrite app_nil_r. by apply in_plus_one.
  - change (concat (u :: u' :: us')) with (u ++ concat (u' :: us')).
    apply in_plus_more; [done|]. by apply IH.
Qed.

Lemma ends_sound r : ∀ s t, In t (ends r s) → ∃ u, s = u ++ t ∧ in_lang r u.
Proof.
  induction r as [p|r1 IH1 r2 IH2|r IH]; intros s t Hin; simpl in Hin.
  - destruct s as [|c s]; [done|]. destruct (p c) eqn:Hp; [|done].
    destruct Hin as [<-|[]]. exists [c]. split; [done|]. by constructor.
  - apply in_flat_map in Hin as (m & Hm & Hin).
    destruct (IH1 _ _ Hm) as (u & -> & Hu).
    destruct (IH2 _ _ Hin) as (v & -> & Hv).
    exists (u ++ v). split; [by rewrite <- app_assoc|]. by constructor.
  - destruct (plus_ends_sound (in_lang r) (ends r) IH _ _ _ Hin)
      as (us & Hne & Hus & ->).
    exists (concat us). split; [done|]. by apply in_lang_plus_concat.
Qed.

Lemma ends_complete r u :
  in_lang r u → ∀ t, In t (ends r (u ++ t)).
Proof.
  induction 1 as [p c Hp|r1 r2 u v _ IHu _ IHv|r u Hu IH
                 |r u v Hu IHu Hv IHv]; intros t.
  - simpl. rewrite Hp. by left.
  - simpl. apply in_flat_map. exists (v ++ t).
    split; [|apply IHv]. rewrite <- app_assoc. apply IHu.
  - simpl. pose proof (in_lang_nonempty _ _ Hu) as Hne.
    destruct (length (u ++ t)) as [|n] eqn:Hlen.
    { destruct u; [done|]. simpl in Hlen. lia. }
    simpl. apply in_flat_map. exists t. split; [apply IH|].
    apply in_app_iff. right. by left.
  - pose proof (in_lang_nonempty _ _ Hu) as Hne.
    specialize (IHv t). simpl in IHv. simpl.
    rewrite <- app_assoc.
    destruct (length (u ++ v ++ t)) as [|n] eqn:Hlen.
    { destruct u; [done|]. simpl in Hlen. lia. }
    simpl. apply in_flat_map. exists (v ++ t). split; [apply IHu|].
    apply in_app_iff. left.
    eapply plus_ends_mono; [|exact IHv].
    rewrite length_app in Hlen. destruct u; [done|]. simpl in Hlen. lia.
Qed.

Lemma match_here_spec r s :
  match_here r s = true ↔ ∃ u t, s = u ++ t ∧ in_lang r u.
Proof.
  unfold match_here. rewrite negb_true_iff, bool_decide_eq_false. split.
  - intros Hne. destruct (ends r s) as [|t l] eqn:He; [done|].
    destruct (ends_sound r s t) as (u & -> & Hu); [rewrite He; by left|].
    by exists u, t.
  - intros (u & t & -> & Hu) He.
    pose proof (ends_complete r u Hu t) as Hin. by rewrite He in Hin.
Qed.

(** [test] finds exactly the strings with a part in the language. *)
Lemma test_spec r s :
  test r s = true ↔ ∃ pre u post, s = pre ++ u ++ post ∧ in_lang r u.
Proof.
  induction s as [|c s IH].
  - simpl. rewrite orb_false_r, match_here_spec. split.
    + intros (u & t & E & Hu). by exists [], u, t.
    + intros (pre & u & post & E & Hu).
      symmetry in E. apply app_eq_nil in E as [-> E].
      exists u, post. by split.
  - simpl. rewrite orb_true_iff, IH, match_here_spec. split.
    + intros [(u & t & E & Hu)|(pre & u & post & -> & Hu)].
      * by exists [], u, t.
      * by exists (c :: pre), u, post.
    + intros (pre & u & post & E & Hu). destruct pre as [|c' pre].
      * left. by exists u, post.
      * right. injection E as -> ->. by exists pre, u, post.
Qed.

End MatcherFacts.

(** ** The email pattern *)

Section EmailPattern.

Lemma match_whole_spec r s : match_whole r s = true ↔ in_lang r s.
Proof.
  unfold match_whole. rewrite existsb_exists. split.
  - intros (t & Hin & Ht). destruct t; [|done].
    destruct (ends_sound _ _ _ Hin) as (u & -> & Hu).
    by rewrite app_nil_r.
  - intros H. exists []. split; [|done].
    pose proof (ends_complete r s H []) as Hin. by rewrite app_nil_r in Hin.
Qed.

Lemma in_lang_class p u : in_lang (Class p) u ↔ ∃ c, u = [c] ∧ p c = true.
Proof.
  split.
  - inversion 1; subst. by eexists.
  - intros (c & -> & Hp). by constructor.
Qed.

Lemma in_lang_seq r1 r2 s :
  in_lang (Seq r1 r2) s ↔ ∃ u v, s = u ++ v ∧ in_lang r1 u ∧ in_lang r2 v.
Proof.
  split.
  - inversion 1; subst. by eexists _, _.
  - intros (u & v & -> & Hu & Hv). by constructor.
Qed.

Lemma in_lang_plus_class p u :
  in_lang (Plus (Class p)) u ↔ u ≠ [] ∧ Forall (fun c => p c = true) u.
Proof.
  split.
  - intros H. remember (Plus (Class p)) as r eqn:Er.
    induction H as [| |r u Hu _|r u v Hu _ Hv IHv]; try discriminate.
    + injection Er as ->. apply in_lang_class in Hu as (c & -> & Hp).
      split; [done|]. by repeat constructor.
    + injection Er as ->. apply in_lang_class in Hu as (c & -> & Hp).
      destruct (IHv eq_refl) as [_ Hall]. split; [done|].
      by constructor.
  - intros [Hne Hall]. induction Hall as [|c u Hc Hall IH]; [done|].
    destruct u as [|c' u'].
    + apply in_plus_one. by constructor.
    + change (c :: c' :: u') with ([c] ++ c' :: u').
      apply in_plus_more; [by constructor|]. by apply IH.
Qed.

Lemma in_lang_email_regex u : in_lang email_regex u ↔ email_shape u.
Proof.
  unfold email_regex, email_shape, word.
  rewrite in_lang_seq. split.
  - intros (a & v1 & -> & Ha & H1).
    apply in_lang_seq in H1 as (at_ & v2 & -> & Hat & H2).
    apply in_lang_seq in H2 as (b & v3 & -> & Hb & H3).
    apply in_lang_seq in H3 as (dot & c & -> & Hdot & Hc).
    apply in_lang_class in Hat as (x & -> & Hx).
    apply in_lang_class in Hdot as (y & -> & Hy).
    apply N.eqb_eq in Hx as ->. apply N.eqb_eq in Hy as ->.
    apply in_lang_plus_class in Ha, Hb, Hc.
    by exists a, b, c.
  - intros (a & b & c & -> & Ha & Hb & Hc).
    apply in_lang_plus_class in Ha, Hb, Hc.
    exists a, ([64%N] ++ b ++ [46%N] ++ c). split; [done|]. split; [done|].
    apply in_lang_seq. exists [64%N], (b ++ [46%N] ++ c).
    split; [done|]. split; [by constructor|].
    apply in_lang_seq. exists b, ([46%N] ++ c).
    split; [done|]. split; [done|].
    apply in_lang_seq. exists [46%N], c.
    split; [done|]. split; [by constructor|done].
Qed.

(** The test of line 31 succeeds exactly on the strings that have a part
    of the shape word, '@', word, '.', word. *)
Lemma email_test_spec s :
  test email_regex s = true ↔ contains_email_shape s.
Proof.
  rewrite test_spec. unfold contains_email_shape.
  split; intros (pre & u & post & E & Hu); exists pre, u, post;
    (split; [done|]); by apply in_lang_email_regex.
Qed.

(** The anchored match decides the shape of the whole string. *)
Lemma email_shape_spec s :
  match_whole email_regex s = true ↔ email_shape s.
Proof. by rewrite match_whole_spec, in_lang_email_regex. Qed.

Lemma email_shape_contains s : email_shape s → contains_email_shape s.
Proof.
  intros H. exists [], s, []. split; [|done]. simpl. by rewrite app_nil_r.
Qed.

End EmailPattern.

Example test_plain_address : test email_regex (lit "ada@example.org") = true.
Proof. reflexivity. Qed.

Example test_no_dot : test email_regex (lit "ada@example") = false.
Proof. reflexivity. Qed.

Example test_empty_domain : test email_regex (lit "ada@.org") = false.
Proof. reflexivity. Qed.

Example test_space_before_dot :
  test email_regex (lit "ada@example .org") = false.
Proof. reflexivity. Qed.

Example test_tab_is_whitespace :
  test email_regex [97; 9; 64; 98; 46; 99]%N = false.
Proof. reflexivity. Qed.

Example test_surrounding_text :
  test email_regex (lit "mail me at ada@example.org please") = true
  ∧ match_whole email_regex (lit "mail me at ada@example.org please") = false.
Proof. split; reflexivity. Qed.

(** ** validateForm *)

Section ValidateFacts.

Variable r : State.

Local Ltac split_rules :=
  unfold newErrors;
  repeat match goal with
         | |- context [if ?b then _ else _] => destruct b
         end;
  cbv zeta; by simplify_map_eq.

Lemma newErrors_email :
  newErrors r !! "email" =
    if is_empty (email (formData r)) then Some (lit "Email is required")
    else if negb (test email_regex (email (formData r)))
         then Some (lit "Email is invalid")
         else None.
Proof. split_rules. Qed.

Lemma newErrors_password :
  newErrors r !! "password" =
    if is_empty (password (formData r)) then
      Some (lit "Password is required")
    else if length (password (formData r)) <? 6
         then Some (lit "Password must be at least 6 characters")
         else None.
Proof. split_rules. Qed.

Lemma newErrors_name :
  newErrors r !! "name" =
    if negb (isLogin r) then
      if is_empty (name (formData r)) then Some (lit "Name is required")
      else None
    else None.
Proof. split_rules. Qed.

Lemma newErrors_confirmPassword :
  newErrors r !! "confirmPassword" =
    if negb (isLogin r) then
      if is_empty (confirmPassword (formData r)) then
        Some (lit "Please confirm your password")
      else if strict_neq (password (formData r))
                         (confirmPassword (formData r))
           then Some (lit "Passwords do not match")
           else None
    else None.
Proof. split_rules. Qed.

End ValidateFacts.

Section ValidateRules.

Variable r : State.

Lemma dom_insert_key (k : string) (v : jsstring)
      (m : gmap string jsstring) :
  k ∈ all_keys → dom m ⊆ all_keys → dom (<[k:=v]> m) ⊆ all_keys.
Proof.
  intros Hk Hm x. rewrite dom_insert_L, elem_of_union, elem_of_singleton.
  intros [->|Hx]; [done|by apply Hm].
Qed.

Lemma newErrors_dom : dom (newErrors r) ⊆ all_keys.
Proof.
  assert (∀ k, k = "name" ∨ k = "email" ∨ k = "password"
               ∨ k = "confirmPassword" → k ∈ all_keys) as Hkeys.
  { intros k. unfold all_keys.
    rewrite !elem_of_union, !elem_of_singleton. tauto. }
  unfold newErrors. cbv zeta.
  repeat match goal with
         | |- dom (if ?b then _ else _) ⊆ _ => destruct b
         | |- dom (<[_:=_]> _) ⊆ _ =>
             apply dom_insert_key; [apply Hkeys; tauto|]
         | |- dom ∅ ⊆ _ => by rewrite dom_empty_L
         end.
Qed.

Lemma newErrors_empty_iff :
  newErrors r = ∅ ↔
  newErrors r !! "name" = None ∧ newErrors r !! "email" = None ∧
  newErrors r !! "password" = None ∧
  newErrors r !! "confirmPassword" = None.
Proof.
  split; [by intros ->|]. intros (Hn & He & Hp & Hc).
  apply map_eq. intros k. rewrite lookup_empty.
  destruct (newErrors r !! k) as [m|] eqn:Hk; [|done].
  assert (k ∈ all_keys) as Hin.
  { apply newErrors_dom, elem_of_dom. by eexists. }
  unfold all_keys in Hin.
  rewrite !elem_of_union, !elem_of_singleton in Hin.
  destruct Hin as [[[->| ->]| ->]| ->]; congruence.
Qed.

Lemma is_empty_true (s : jsstring) : is_empty s = true ↔ s = [].
Proof. by destruct s. Qed.

Lemma is_empty_false (s : jsstring) : is_empty s = false ↔ s ≠ [].
Proof. by destruct s. Qed.

Lemma email_ok_iff :
  newErrors r !! "email" = None ↔ email_rule (formData r).
Proof.
  rewrite newErrors_email. unfold email_rule.
  destruct (is_empty (email (formData r))) eqn:He.
  - apply is_empty_true in He. split; [done|]. by intros [? _].
  - apply is_empty_false in He.
    destruct (test email_regex (email (formData r))) eqn:Ht; simpl.
    + apply email_test_spec in Ht. by split.
    + split; [done|]. intros [_ Hc]. apply email_test_spec in Hc.
      congruence.
Qed.

Lemma password_ok_iff :
  newErrors r !! "password" = None ↔ password_rule (formData r).
Proof.
  rewrite newErrors_password. unfold password_rule.
  destruct (is_empty (password (formData r))) eqn:He.
  - apply is_empty_true in He. split; [done|]. by intros [? _].
  - apply is_empty_false in He.
    destruct (length (password (formData r)) <? 6) eqn:Hl.
    + apply Nat.ltb_lt in Hl. split; [done|]. intros [_ ?]. lia.
    + apply Nat.ltb_ge in Hl. by split.
Qed.

Lemma name_ok_iff :
  newErrors r !! "name" = None ↔
  (isLogin r = false → name_rule (formData r)).
Proof.
  rewrite newErrors_name. unfold name_rule.
  destruct (isLogin r); simpl; [by split|].
  destruct (is_empty (name (formData r))) eqn:He.
  - apply is_empty_true in He. split; [done|]. intros H. by destruct H.
  - apply is_empty_false in He. by split.
Qed.

Lemma confirmPassword_ok_iff :
  newErrors r !! "confirmPassword" = None ↔
  (isLogin r = false → confirmPassword_rule (formData r)).
Proof.
  rewrite newErrors_confirmPassword. unfold confirmPassword_rule.
  destruct (isLogin r); simpl; [by split|].
  destruct (is_empty (confirmPassword (formData r))) eqn:He.
  - apply is_empty_true in He. split; [done|].
    intros H. by destruct H as [? _].
  - apply is_empty_false in He. unfold strict_neq.
    case_bool_decide as Heq; simpl.
    + by split.
    + split; [done|]. intros H. destruct H as [_ ?]; [done|congruence].
Qed.

Lemma newErrors_empty_rules :
  newErrors r = ∅ ↔ rules_satisfied (isLogin r) (formData r).
Proof.
  rewrite newErrors_empty_iff, email_ok_iff, password_ok_iff, name_ok_iff,
    confirmPassword_ok_iff.
  unfold rules_satisfied. tauto.
Qed.

Lemma size_newErrors_rules :
  (size (newErrors r) =? 0) = true ↔
  rules_satisfied (isLogin r) (formData r).
Proof.
  rewrite Nat.eqb_eq, map_size_empty_iff. apply newErrors_empty_rules.
Qed.

Lemma run_validateForm :
  run validateForm r =
    (Normal (size (newErrors r) =? 0), with_errors (newErrors r) r, []).
Proof. reflexivity. Qed.

End ValidateRules.

(** C1, as it is worded, fails: in Login mode, with the email ["a b@c.d"]
    and the password ["secret1"], [validateForm] returns [true], and yet
    the email rule of the specification does not hold, the email not being
    of the shape word, '@', word, '.', word. *)
Lemma validateForm_true_on_email_with_space :
  completion_of (run validateForm (Samples.login_state "a b@c.d" "secret1"))
    = Normal true ∧
  ¬ rules_as_worded
      (isLogin (Samples.login_state "a b@c.d" "secret1"))
      (formData (Samples.login_state "a b@c.d" "secret1")).
Proof.
  split; [by vm_compute|].
  intros [[_ Hshape] _]. apply email_shape_spec in Hshape.
  by vm_compute in Hshape.
Qed.

(** C1, amended. For every store, [validateForm] returns, and returns
    [true] exactly when every rule of the active mode holds: the email and
    password rules always, the name and confirmPassword rules in Register
    mode only, the email rule being that the email is not empty and that
    some part of it has the shape word, '@', word, '.', word. It writes the
    errors cell, and no other: the new object is computed from the fields
    and the mode alone, whatever the cell held before; it is empty exactly
    when [true] is returned; it holds a key exactly for the active fields
    whose rule fails, so none for a field the mode does not show. *)
Theorem validateForm_correct (st : State) :
  ∃ b : bool,
    completion_of (run validateForm st) = Normal b ∧
    (b = true ↔ rules_satisfied (isLogin st) (formData st)) ∧
    (b = true ↔ errors (state_of (run validateForm st)) = ∅) ∧
    state_of (run validateForm st)
      = with_errors (errors (state_of (run validateForm st))) st ∧
    trace_of (run validateForm st) = [] ∧
    (∀ old : gmap string jsstring,
        errors (state_of (run validateForm (with_errors old st)))
        = errors (state_of (run validateForm st))) ∧
    dom (errors (state_of (run validateForm st))) ⊆ all_keys ∧
    (errors (state_of (run validateForm st)) !! "email" = None
       ↔ email_rule (formData st)) ∧
    (errors (state_of (run validateForm st)) !! "password" = None
       ↔ password_rule (formData st)) ∧
    (errors (state_of (run validateForm st)) !! "name" = None
       ↔ (isLogin st = false → name_rule (formData st))) ∧
    (errors (state_of (run validateForm st)) !! "confirmPassword" = None
       ↔ (isLogin st = false → confirmPassword_rule (formData st))) ∧
    (isLogin st = true →
       ∀ k, k ∈ register_only_keys →
            errors (state_of (run validateForm st)) !! k = None).
Proof.
  rewrite run_validateForm. exists (size (newErrors st) =? 0).
  unfold completion_of, state_of, trace_of; simpl.
  split; [done|]. split; [apply size_newErrors_rules|].
  split; [by rewrite Nat.eqb_eq, map_size_empty_iff|].
  split; [done|]. split; [done|]. split; [done|].
  split; [apply newErrors_dom|]. split; [apply email_ok_iff|].
  split; [apply password_ok_iff|]. split; [apply name_ok_iff|].
  split; [apply confirmPassword_ok_iff|].
  intros Hlogin k Hk. unfold register_only_keys in Hk.
  apply elem_of_cons in Hk as [->|Hk].
  - apply name_ok_iff. congruence.
  - apply list_elem_of_singleton in Hk as ->.
    apply confirmPassword_ok_iff. congruence.
Qed.

(** ** The email rule *)

(** C2, as it is worded, fails: ["a b@c.d"] is not empty and is not of the
    shape word, '@', word, '.', word (its only '@' follows ["a b"], which
    holds a space), and yet [validateForm] records no email error for it:
    the test is not anchored and finds ["b@c.d"] inside. *)
Lemma email_with_space_accepted :
  email (formData (Samples.login_state "a b@c.d" "secret")) ≠ [] ∧
  ¬ email_shape (email (formData (Samples.login_state "a b@c.d" "secret"))) ∧
  errors (state_of (run validateForm
                        (Samples.login_state "a b@c.d" "secret")))
    !! "email" = None.
Proof.
  split; [done|]. split.
  - rewrite <- email_shape_spec. by vm_compute.
  - by vm_compute.
Qed.

(** C2, amended. The email error after [validateForm] is "Email is
    required" exactly when the email is empty; it is "Email is invalid"
    exactly when the email is not empty and no part of it has the shape
    word, '@', word, '.', word (a word being one or more code units that
    [\s] does not match); there is no email error exactly when some part of
    the email has that shape, so in particular when the whole email has
    it. *)
Theorem validateForm_email_error (st : State) :
  (errors (state_of (run validateForm st)) !! "email"
     = Some (lit "Email is required")
   ↔ email (formData st) = []) ∧
  (errors (state_of (run validateForm st)) !! "email"
     = Some (lit "Email is invalid")
   ↔ email (formData st) ≠ [] ∧ ¬ contains_email_shape (email (formData st))) ∧
  (errors (state_of (run validateForm st)) !! "email" = None
   ↔ contains_email_shape (email (formData st))) ∧
  (∀ m, errors (state_of (run validateForm st)) !! "email" = Some m →
        m = lit "Email is required" ∨ m = lit "Email is invalid") ∧
  (email_shape (email (formData st)) →
   errors (state_of (run validateForm st)) !! "email" = None).
Proof.
  rewrite run_validateForm. unfold state_of; simpl.
  rewrite newErrors_email.
  assert (contains_email_shape (email (formData st)) →
          email (formData st) ≠ []) as Hne.
  { intros (pre & u & post & E & a & b & c & -> & _) Hnil.
    rewrite Hnil in E. destruct pre; [|done]. by destruct a. }
  destruct (is_empty (email (formData st))) eqn:He.
  - apply is_empty_true in He.
    split; [done|]. split; [split; [done|by intros [? _]]|].
    split; [split; [done|intros Hc; by apply Hne in Hc]|].
    split; [intros m [= <-]; by left|].
    intros Hs. by apply email_shape_contains, Hne in Hs.
  - apply is_empty_false in He.
    destruct (test email_regex (email (formData st))) eqn:Ht; simpl.
    + apply email_test_spec in Ht.
      split; [done|]. split; [split; [done|by intros [_ ?]]|].
      split; [done|]. split; [done|done].
    + assert (¬ contains_email_shape (email (formData st))) as Hno.
      { intros Hc. apply email_test_spec in Hc. congruence. }
      split; [split; [by vm_compute|done]|].
      split; [done|]. split; [done|].
      split; [intros m [= <-]; by right|].
      intros Hs. by apply email_shape_contains in Hs.
Qed.

Lemma validateForm_email_error_witness :
  errors (state_of (run validateForm
                        (Samples.login_state "ada@example.org" "secret")))
    !! "email" = None.
Proof.
  destruct (validateForm_email_error
              (Samples.login_state "ada@example.org" "secret"))
    as (_ & _ & _ & _ & Hshape).
  apply Hshape. apply email_shape_spec. vm_compute. reflexivity.
Defined.

(** ** handleSubmit *)

Arguments lit : simpl never.
Arguments newErrors : simpl never.

Ltac unfold_handlers :=
  unfold run, handleSubmit, handleForgotPassword, handleInputChange,
    toggleForm, validateForm, setErrors, setLoading, setIsLogin, setFormData,
    setShowPassword, setShowConfirmPassword, modify, try_finally, try_catch,
    await_signIn, await_signUp, await_resetPassword, call_toast, call,
    completion_of, state_of, trace_of;
  unfold mbind, mret, M_bind, M_ret.

(** Case analysis on every answer of the environment that the goal still
    depends on. *)
Ltac case_answers :=
  repeat (match goal with
          | |- context [if isLogin ?s then _ else _] =>
              destruct (isLogin s) eqn:?
          | |- context [signIn ?w ?a ?b] => destruct (signIn w a b) eqn:?
          | |- context [signUp ?w ?a ?b ?c] => destruct (signUp w a b c) eqn:?
          | |- context [resetPassword ?w ?a] =>
              destruct (resetPassword w a) eqn:?
          | |- context [truthy ?x] => destruct (truthy x) eqn:?
          | |- context [success ?x] => destruct (success x) eqn:?
          | |- context [toast ?w ?t] => destruct (toast w t) eqn:?
          end; simpl).

Lemma validateForm_returns (st : State) (b : bool) :
  completion_of (run validateForm st) = Normal b ↔
  (size (newErrors st) =? 0) = b.
Proof.
  rewrite run_validateForm. unfold completion_of; simpl.
  split; [by intros [= ->]|by intros ->].
Qed.

(** C3, as it is worded, fails twice. A result whose error is the empty
    string is a structured error, yet [handleSubmit] answers it with the
    positive notification: here the SDK rejects with an [Error] of empty
    message and [signIn] returns that message as the error. And when the
    sink throws on the negative notification of a structured error, the
    generic notification follows: two negative notifications, not one. *)
Lemma handleSubmit_empty_message_and_broken_sink :
  Firebase.signIn Samples.sdk_silent_fault (lit "a@b.c") (lit "secret1")
    = Normal (mkAuthResult None (Some empty_string)) ∧
  toasts (trace_of (run (handleSubmit
                           (shipped_world Samples.sdk_silent_fault
                                          Samples.sink_ok))
                        (Samples.login_state "a@b.c" "secret1")))
    = [Notify.welcome_back] ∧
  toasts (trace_of (run (handleSubmit
                           (Samples.world_rejecting_broken_sink
                              "wrong password"))
                        (Samples.login_state "a@b.c" "secret1")))
    = [Notify.login_failed (Some (lit "wrong password"));
       Notify.something_went_wrong].
Proof. repeat split; reflexivity. Qed.

(** C3, amended. When validation succeeds, [handleSubmit] calls the
    provider exactly once, whatever the environment does: [signIn] with
    the email and the password in Login mode, [signUp] with the email, the
    password and the name in Register mode; and the form fields are as
    they were. If the call returns a result whose error is falsy ([null]
    or the empty string), the first notification is the positive one of
    the mode ("Welcome back!", "Account Created!"); if it returns a result
    whose error is truthy (a message that is not empty), the first
    notification is the negative one of the mode, carrying that message.
    That notification is the only one when the sink accepts it; when the
    sink throws on it, the generic negative notification follows and is
    the last. *)
Theorem handleSubmit_dispatch (w : World) (st : State)
    (Hvalid : completion_of (run validateForm st) = Normal true) :
  (isLogin st = true →
     provider_calls (trace_of (run (handleSubmit w) st))
       = [CallSignIn (email (formData st)) (password (formData st))] ∧
     (∀ res,
         signIn w (email (formData st)) (password (formData st)) = Normal res →
         truthy (error res) = false →
         (∀ x, toast w Notify.welcome_back = Normal x →
               toasts (trace_of (run (handleSubmit w) st))
                 = [Notify.welcome_back]) ∧
         (∀ e, toast w Notify.welcome_back = Throw e →
               toasts (trace_of (run (handleSubmit w) st))
                 = [Notify.welcome_back; Notify.something_went_wrong])) ∧
     (∀ res,
         signIn w (email (formData st)) (password (formData st)) = Normal res →
         truthy (error res) = true →
         (∀ x, toast w (Notify.login_failed (error res)) = Normal x →
               toasts (trace_of (run (handleSubmit w) st))
                 = [Notify.login_failed (error res)]) ∧
         (∀ e, toast w (Notify.login_failed (error res)) = Throw e →
               toasts (trace_of (run (handleSubmit w) st))
                 = [Notify.login_failed (error res);
                    Notify.something_went_wrong]))) ∧
  (isLogin st = false →
     provider_calls (trace_of (run (handleSubmit w) st))
       = [CallSignUp (email (formData st)) (password (formData st))
                     (name (formData st))] ∧
     (∀ res,
         signUp w (email (formData st)) (password (formData st))
                (name (formData st)) = Normal res →
         truthy (error res) = false →
         (∀ x, toast w Notify.account_created = Normal x →
               toasts (trace_of (run (handleSubmit w) st))
                 = [Notify.account_created]) ∧
         (∀ e, toast w Notify.account_created = Throw e →
               toasts (trace_of (run (handleSubmit w) st))
                 = [Notify.account_created; Notify.something_went_wrong])) ∧
     (∀ res,
         signUp w (email (formData st)) (password (formData st))
                (name (formData st)) = Normal res →
         truthy (error res) = true →
         (∀ x, toast w (Notify.registration_failed (error res)) = Normal x →
               toasts (trace_of (run (handleSubmit w) st))
                 = [Notify.registration_failed (error res)]) ∧
         (∀ e, toast w (Notify.registration_failed (error res)) = Throw e →
               toasts (trace_of (run (handleSubmit w) st))
                 = [Notify.registration_failed (error res);
                    Notify.something_went_wrong]))) ∧
  formData (state_of (run (handleSubmit w) st)) = formData st ∧
  (∀ v, truthy v = true ↔ ∃ msg, v = Some msg ∧ msg ≠ []) ∧
  variant Notify.welcome_back = Default ∧
  variant Notify.account_created = Default ∧
  variant Notify.something_went_wrong = Destructive ∧
  (∀ msg, variant (Notify.login_failed msg) = Destructive) ∧
  (∀ msg, variant (Notify.registration_failed msg) = Destructive).
Proof.
  apply validateForm_returns in Hvalid.
  split; [|split; [|split; [|split; [|done]]]].
  - intros Hlogin. split; [|split].
    + unfold_handlers. rewrite Hvalid, Hlogin. simpl.
      case_answers; reflexivity.
    + intros res Hres Herr.
      unfold Notify.welcome_back, Notify.something_went_wrong.
      split; intros ? Hsink; unfold_handlers;
        rewrite Hvalid, Hlogin; simpl; rewrite Hres; simpl; rewrite Herr;
        simpl; rewrite Hsink; simpl; case_answers; reflexivity.
    + intros res Hres Herr.
      unfold Notify.login_failed, Notify.something_went_wrong.
      split; intros ? Hsink; unfold_handlers;
        rewrite Hvalid, Hlogin; simpl; rewrite Hres; simpl; rewrite Herr;
        simpl; rewrite Hsink; simpl; case_answers; reflexivity.
  - intros Hlogin. split; [|split].
    + unfold_handlers. rewrite Hvalid, Hlogin. simpl.
      case_answers; reflexivity.
    + intros res Hres Herr.
      unfold Notify.account_created, Notify.something_went_wrong.
      split; intros ? Hsink; unfold_handlers;
        rewrite Hvalid, Hlogin; simpl; rewrite Hres; simpl; rewrite Herr;
        simpl; rewrite Hsink; simpl; case_answers; reflexivity.
    + intros res Hres Herr.
      unfold Notify.registration_failed, Notify.something_went_wrong.
      split; intros ? Hsink; unfold_handlers;
        rewrite Hvalid, Hlogin; simpl; rewrite Hres; simpl; rewrite Herr;
        simpl; rewrite Hsink; simpl; case_answers; reflexivity.
  - unfold_handlers. rewrite Hvalid. simpl. case_answers; reflexivity.
  - intros v. destruct v as [[|c m]|]; simpl; split; try done.
    + by intros (msg & [= <-] & ?).
    + intros _. by eexists.
    + by intros (msg & ? & _).
Qed.

Lemma handleSubmit_dispatch_witness :
  toasts (trace_of (run (handleSubmit Samples.world_ok)
                        (Samples.register_state "Ada" "ada@example.org"
                                                "secret1" "secret1")))
    = [Notify.account_created].
Proof.
  destruct (handleSubmit_dispatch Samples.world_ok
              (Samples.register_state "Ada" "ada@example.org"
                                      "secret1" "secret1"))
    as (_ & Hregister & _).
  - vm_compute. reflexivity.
  - destruct Hregister as (_ & Hok & _); [reflexivity|].
    destruct (Hok (mkAuthResult (Some Samples.some_user) None))
      as (Haccepted & _); [reflexivity|reflexivity|].
    apply (Haccepted tt). reflexivity.
Defined.

(** C4. When validation fails, [handleSubmit] returns at once: nothing is
    called (no provider operation, no notification), [setLoading] is not
    called and the loading cell keeps its value; only the errors cell is
    written. An empty email makes validation fail, whatever the password:
    in Login mode the error "Email is required" is recorded and the
    provider is not called. *)
Theorem handleSubmit_invalid (w : World) (st : State) :
  (completion_of (run validateForm st) = Normal false →
     completion_of (run (handleSubmit w) st) = Normal tt ∧
     trace_of (run (handleSubmit w) st) = [] ∧
     provider_calls (trace_of (run (handleSubmit w) st)) = [] ∧
     loading_writes (trace_of (run (handleSubmit w) st)) = [] ∧
     loading (state_of (run (handleSubmit w) st)) = loading st ∧
     state_of (run (handleSubmit w) st) = state_of (run validateForm st)) ∧
  (isLogin st = true → email (formData st) = [] →
     completion_of (run validateForm st) = Normal false ∧
     errors (state_of (run (handleSubmit w) st)) !! "email"
       = Some (lit "Email is required") ∧
     provider_calls (trace_of (run (handleSubmit w) st)) = [] ∧
     loading_writes (trace_of (run (handleSubmit w) st)) = []).
Proof.
  assert ((size (newErrors st) =? 0) = false →
          run (handleSubmit w) st
          = (Normal tt, with_errors (newErrors st) st, [])) as Hrun.
  { intros Hb. unfold_handlers. by rewrite Hb. }
  split.
  - intros Hinv. apply validateForm_returns in Hinv.
    rewrite (Hrun Hinv), run_validateForm.
    unfold completion_of, state_of, trace_of. by simpl.
  - intros Hlogin Hemail.
    assert ((size (newErrors st) =? 0) = false) as Hinv.
    { apply not_true_is_false. intros Hok.
      apply size_newErrors_rules in Hok as [[Hne _] _]. done. }
    rewrite (Hrun Hinv). unfold completion_of, state_of, trace_of.
    simpl. split; [by apply validateForm_returns|].
    split; [|done]. rewrite newErrors_email. by rewrite Hemail.
Qed.

Lemma handleSubmit_invalid_witness :
  errors (state_of (run (handleSubmit Samples.world_ok)
                        (Samples.login_state EmptyString "hunter22")))
    !! "email" = Some (lit "Email is required") ∧
  trace_of (run (handleSubmit Samples.world_ok)
                (Samples.login_state EmptyString "hunter22")) = [].
Proof.
  destruct (handleSubmit_invalid Samples.world_ok
              (Samples.login_state EmptyString "hunter22")) as (Hinv & Hempty).
  destruct Hempty as (Hfails & Herr & _); [reflexivity|reflexivity|].
  destruct (Hinv Hfails) as (_ & Htrace & _).
  split; [exact Herr|exact Htrace].
Defined.

(** C5. When validation succeeds, whatever the provider and the sink do
    (return a result, return an error, throw), [setLoading] is called with
    [true] and then with [false], and the loading cell is [false] when
    [handleSubmit] settles. When the provider call throws, the only
    notification is the generic one, "Something went wrong. Please try
    again.", a negative one. *)
Theorem handleSubmit_settles (w : World) (st : State)
    (Hvalid : completion_of (run validateForm st) = Normal true) :
  loading (state_of (run (handleSubmit w) st)) = false ∧
  loading_writes (trace_of (run (handleSubmit w) st)) = [true; false] ∧
  (isLogin st = true →
     ∀ e, signIn w (email (formData st)) (password (formData st)) = Throw e →
          toasts (trace_of (run (handleSubmit w) st))
            = [Notify.something_went_wrong]) ∧
  (isLogin st = false →
     ∀ e, signUp w (email (formData st)) (password (formData st))
                 (name (formData st)) = Throw e →
          toasts (trace_of (run (handleSubmit w) st))
            = [Notify.something_went_wrong]) ∧
  variant Notify.something_went_wrong = Destructive.
Proof.
  apply validateForm_returns in Hvalid.
  split; [|split; [|split; [|split; [|done]]]].
  - unfold_handlers. rewrite Hvalid. simpl. case_answers; reflexivity.
  - unfold_handlers. rewrite Hvalid. simpl. case_answers; reflexivity.
  - intros Hlogin e He. unfold_handlers. rewrite Hvalid, Hlogin. simpl.
    rewrite He. simpl. case_answers; reflexivity.
  - intros Hlogin e He. unfold_handlers. rewrite Hvalid, Hlogin. simpl.
    rewrite He. simpl. case_answers; reflexivity.
Qed.

Lemma handleSubmit_settles_witness :
  loading (state_of (run (handleSubmit
                            (Samples.world_throwing Samples.sink_broken))
                         (Samples.login_state "a@b.c" "secret")))
    = false.
Proof.
  destruct (handleSubmit_settles (Samples.world_throwing Samples.sink_broken)
              (Samples.login_state "a@b.c" "secret")) as (Hloading & _).
  - vm_compute. reflexivity.
  - exact Hloading.
Defined.

(** ** handleForgotPassword *)

(** C6. With an empty email, [handleForgotPassword] emits the negative
    "Email Required" notification and nothing else: the provider is not
    called. With any other email it calls [resetPassword] with that email,
    once; when the call returns success the only notification is the
    positive "Reset Email Sent", when it returns a failure the only
    notification is the negative "Reset Failed" carrying the error of the
    result. What happens depends on the email alone (not on the password,
    the name or the mode), and the store, the loading cell included, is
    never written. *)
Theorem handleForgotPassword_correct (w : World) (st : State) :
  (email (formData st) = [] →
     trace_of (run (handleForgotPassword w) st)
       = [CallToast Notify.email_required] ∧
     provider_calls (trace_of (run (handleForgotPassword w) st)) = []) ∧
  (email (formData st) ≠ [] →
     provider_calls (trace_of (run (handleForgotPassword w) st))
       = [CallResetPassword (email (formData st))] ∧
     (∀ res, resetPassword w (email (formData st)) = Normal res →
             success res = true →
             toasts (trace_of (run (handleForgotPassword w) st))
               = [Notify.reset_email_sent]) ∧
     (∀ res, resetPassword w (email (formData st)) = Normal res →
             success res = false →
             toasts (trace_of (run (handleForgotPassword w) st))
               = [Notify.reset_failed (reset_error res)])) ∧
  (∀ st', email (formData st') = email (formData st) →
          trace_of (run (handleForgotPassword w) st')
          = trace_of (run (handleForgotPassword w) st) ∧
          completion_of (run (handleForgotPassword w) st')
          = completion_of (run (handleForgotPassword w) st)) ∧
  state_of (run (handleForgotPassword w) st) = st ∧
  loading_writes (trace_of (run (handleForgotPassword w) st)) = [] ∧
  variant Notify.email_required = Destructive ∧
  variant Notify.reset_email_sent = Default ∧
  (∀ msg, variant (Notify.reset_failed msg) = Destructive).
Proof.
  split; [|split; [|split; [|split; [|split; [|done]]]]].
  - intros He. unfold_handlers. rewrite He. by simpl.
  - intros He. apply is_empty_false in He. split; [|split].
    + unfold_handlers. rewrite He. case_answers; reflexivity.
    + intros res Hres Hs. unfold_handlers. rewrite He, Hres, Hs. by simpl.
    + intros res Hres Hs. unfold_handlers. rewrite He, Hres, Hs. by simpl.
  - intros st' Heq. unfold_handlers. rewrite Heq.
    destruct (is_empty (email (formData st))); [done|].
    case_answers; by split.
  - unfold_handlers. destruct (is_empty (email (formData st))); [done|].
    case_answers; reflexivity.
  - unfold_handlers. destruct (is_empty (email (formData st))); [done|].
    case_answers; reflexivity.
Qed.

Lemma handleForgotPassword_correct_witness :
  trace_of (run (handleForgotPassword Samples.world_ok)
                (Samples.login_state EmptyString "x"))
    = [CallToast Notify.email_required] ∧
  toasts (trace_of (run (handleForgotPassword
                           (Samples.world_rejecting "user-not-found"))
                        (Samples.login_state "a@b.c" EmptyString)))
    = [Notify.reset_failed (Some (lit "user-not-found"))].
Proof.
  split.
  - destruct (handleForgotPassword_correct Samples.world_ok
                (Samples.login_state EmptyString "x")) as (Hempty & _).
    destruct Hempty as (Htrace & _); [reflexivity|exact Htrace].
  - destruct (handleForgotPassword_correct
                (Samples.world_rejecting "user-not-found")
                (Samples.login_state "a@b.c" EmptyString)) as (_ & Hfull & _).
    destruct Hfull as (_ & _ & Hfail); [by vm_compute|].
    apply (Hfail (mkResetResult false (Some (lit "user-not-found"))));
      reflexivity.
Defined.

(** C9, as it is worded, fails in its last part: the [resetPassword] of
    [@/lib/firebase] does not always return a result. When the SDK rejects
    with [null], reading [error.message] in the [catch] block throws, the
    wrapper throws that [TypeError], and [handleForgotPassword] lets it
    through without any notification. *)
Lemma resetPassword_wrapper_throws_on_null :
  Firebase.resetPassword Samples.sdk_rejecting_null (lit "a@b.c")
    = Throw TypeError_of_nullish ∧
  run (handleForgotPassword
         (shipped_world Samples.sdk_rejecting_null Samples.sink_ok))
      (Samples.login_state "a@b.c" EmptyString)
    = (Throw TypeError_of_nullish, Samples.login_state "a@b.c" EmptyString,
       [CallResetPassword (lit "a@b.c")]).
Proof. split; reflexivity. Qed.

(** C9, amended. [handleForgotPassword] has no handler for a fault: when
    the email is not empty and [resetPassword] throws, the handler completes
    by throwing the same value, after the call and without any
    notification. [handleSubmit] differs: when its provider call throws, it
    completes as the generic notification does, so normally if the sink
    accepts it. The [resetPassword] of [@/lib/firebase] returns a result
    whenever the SDK returns or rejects with a value that is not [null] or
    [undefined], and the handler then reaches one of its two notifications;
    when the SDK rejects with [null] or [undefined] the wrapper throws a
    [TypeError] and the handler lets it through without notification. *)
Theorem handleForgotPassword_fault (w : World) (st : State) :
  (∀ e, email (formData st) ≠ [] →
        resetPassword w (email (formData st)) = Throw e →
        run (handleForgotPassword w) st
        = (Throw e, st, [CallResetPassword (email (formData st))]) ∧
        toasts (trace_of (run (handleForgotPassword w) st)) = []) ∧
  (∀ e, completion_of (run validateForm st) = Normal true →
        (if isLogin st
         then signIn w (email (formData st)) (password (formData st))
         else signUp w (email (formData st)) (password (formData st))
                     (name (formData st))) = Throw e →
        completion_of (run (handleSubmit w) st)
        = toast w Notify.something_went_wrong ∧
        toasts (trace_of (run (handleSubmit w) st))
        = [Notify.something_went_wrong]) ∧
  (∀ sdk addr,
      (sendPasswordResetEmail sdk addr ≠ Throw Nullish →
       ∃ res, Firebase.resetPassword sdk addr = Normal res) ∧
      (sendPasswordResetEmail sdk addr = Throw Nullish →
       Firebase.resetPassword sdk addr = Throw TypeError_of_nullish)) ∧
  (∀ sdk sink, email (formData st) ≠ [] →
      (sendPasswordResetEmail sdk (email (formData st)) ≠ Throw Nullish →
       ∃ t, toasts (trace_of (run (handleForgotPassword
                                     (shipped_world sdk sink)) st)) = [t]) ∧
      (sendPasswordResetEmail sdk (email (formData st)) = Throw Nullish →
       run (handleForgotPassword (shipped_world sdk sink)) st
       = (Throw TypeError_of_nullish, st,
          [CallResetPassword (email (formData st))]))).
Proof.
  split; [|split; [|split]].
  - intros e He Hthrow. apply is_empty_false in He.
    unfold_handlers. by rewrite He, Hthrow.
  - intros e Hvalid Hthrow. apply validateForm_returns in Hvalid.
    unfold_handlers. unfold Notify.something_went_wrong.
    rewrite Hvalid. simpl.
    destruct (isLogin st); simpl; rewrite Hthrow; simpl;
      case_answers; by split.
  - intros sdk addr. unfold Firebase.resetPassword.
    destruct (sendPasswordResetEmail sdk addr) as [x|[|e|]]; simpl;
      split; try done; intros _; by eexists.
  - intros sdk sink He. apply is_empty_false in He.
    unfold_handlers. rewrite He. simpl. unfold Firebase.resetPassword.
    destruct (sendPasswordResetEmail sdk (email (formData st)))
      as [x|[|e|]]; simpl; split; try done; intros _; by eexists.
Qed.

Lemma handleForgotPassword_fault_witness :
  run (handleForgotPassword (Samples.world_throwing Samples.sink_ok))
      (Samples.login_state "a@b.c" EmptyString)
  = (Throw (mkError (lit "network")), Samples.login_state "a@b.c" EmptyString,
     [CallResetPassword (lit "a@b.c")]).
Proof.
  destruct (handleForgotPassword_fault
              (Samples.world_throwing Samples.sink_ok)
              (Samples.login_state "a@b.c" EmptyString)) as (Hfault & _).
  destruct (Hfault (mkError (lit "network"))) as (Hrun & _);
    [by vm_compute|reflexivity|exact Hrun].
Defined.

Example shipped_reset_with_sdk_down :
  run (handleForgotPassword (shipped_world Samples.sdk_down Samples.sink_ok))
      (Samples.login_state "a@b.c" EmptyString)
  = (Normal tt, Samples.login_state "a@b.c" EmptyString,
     [CallResetPassword (lit "a@b.c");
      CallToast (Notify.reset_failed
                   (Some (lit "auth/network-request-failed")))]).
Proof. reflexivity. Qed.

(** ** handleInputChange and toggleForm *)

Lemma key_inj (f g : keyof_FormData) : key f = key g → f = g.
Proof. by destruct f, g. Qed.

Lemma get_set_field_eq k v d : get_field k (set_field k v d) = v.
Proof. by destruct k. Qed.

Lemma get_set_field_ne k k' v d :
  k' ≠ k → get_field k' (set_field k v d) = get_field k' d.
Proof. by destruct k, k'. Qed.

Lemma after_input_eq (st : State) k value :
  after_input st k value =
    mkState (isLogin st) (set_field k value (formData st)) (showPassword st)
            (showConfirmPassword st) (loading st)
            (if truthy (errors st !! key k)
             then <[key k := empty_string]> (errors st)
             else errors st).
Proof.
  unfold after_input. unfold_handlers.
  by destruct (truthy (errors st !! key k)).
Qed.

(** C7. A change event of the input named [k] sets the field [k] of the
    form data to the new value and leaves the other three fields, the mode,
    the reveal flags and the loading cell as they were. In the errors
    object every key other than [k] keeps its entry; the entry of [k] is
    rewritten (to the empty message) only when it held an error, and the
    whole object is unchanged otherwise. *)
Theorem handleInputChange_frame (st : State) (k : keyof_FormData)
    (value : jsstring) :
  get_field k (formData (after_input st k value)) = value ∧
  (∀ k', k' ≠ k →
         get_field k' (formData (after_input st k value))
         = get_field k' (formData st)) ∧
  isLogin (after_input st k value) = isLogin st ∧
  showPassword (after_input st k value) = showPassword st ∧
  showConfirmPassword (after_input st k value) = showConfirmPassword st ∧
  loading (after_input st k value) = loading st ∧
  (∀ j : string, j ≠ key k →
         errors (after_input st k value) !! j = errors st !! j) ∧
  (∀ k', k' ≠ k →
         errors (after_input st k value) !! key k' = errors st !! key k') ∧
  (truthy (errors st !! key k) = true →
         truthy (errors (after_input st k value) !! key k) = false) ∧
  (truthy (errors st !! key k) = false →
         errors (after_input st k value) = errors st) ∧
  completion_of (run (fun r => handleInputChange r k value) st) = Normal tt ∧
  trace_of (run (fun r => handleInputChange r k value) st) = [].
Proof.
  rewrite after_input_eq. simpl.
  assert (∀ j : string, j ≠ key k →
            (if truthy (errors st !! key k)
             then <[key k := empty_string]> (errors st) else errors st) !! j
            = errors st !! j) as Hother.
  { intros j Hj. destruct (truthy (errors st !! key k)); [|done].
    by rewrite lookup_insert_ne. }
  split; [apply get_set_field_eq|].
  split; [intros k' Hk'; by apply get_set_field_ne|].
  split; [done|]. split; [done|]. split; [done|]. split; [done|].
  split; [exact Hother|].
  split.
  { intros k' Hk'. apply Hother. intros Heq. by apply key_inj in Heq. }
  split; [intros ->; by rewrite lookup_insert_eq|].
  split; [by intros ->|].
  unfold_handlers. by destruct (truthy (errors st !! key k)).
Qed.

Lemma handleInputChange_frame_witness :
  errors (after_input
            (with_errors (<["email" := lit "Email is invalid"]>
                            (<["password" := lit "Password is required"]> ∅))
                         (Samples.login_state "a@b" EmptyString))
            k_email (lit "a@b."))
    !! "password" = Some (lit "Password is required").
Proof.
  destruct (handleInputChange_frame
              (with_errors (<["email" := lit "Email is invalid"]>
                              (<["password" := lit "Password is required"]> ∅))
                           (Samples.login_state "a@b" EmptyString))
              k_email (lit "a@b.")) as (_ & _ & _ & _ & _ & _ & _ & Hkeep & _).
  specialize (Hkeep k_password).
  change (key k_password) with "password" in Hkeep.
  rewrite Hkeep; [reflexivity|discriminate].
Defined.

Lemma after_toggle_eq (st : State) :
  after_toggle st =
    mkState (negb (isLogin st)) (mkFormData [] [] [] []) false false
            (loading st) ∅.
Proof. reflexivity. Qed.

(** C8. [toggleForm] flips the mode, empties the four text fields and the
    errors object, sets both reveal flags to false and leaves the loading
    cell as it was, in one step and without any call. Applied twice, it
    gives back the mode it started from, with the fields, the errors and
    the reveal flags of the initial state and the loading cell still
    untouched; from a store with the mode and the loading cell of the
    initial state, the result is the initial state. *)
Theorem toggleForm_correct (st : State) :
  completion_of (run toggleForm st) = Normal tt ∧
  trace_of (run toggleForm st) = [] ∧
  isLogin (after_toggle st) = negb (isLogin st) ∧
  formData (after_toggle st) = mkFormData [] [] [] [] ∧
  errors (after_toggle st) = ∅ ∧
  showPassword (after_toggle st) = false ∧
  showConfirmPassword (after_toggle st) = false ∧
  loading (after_toggle st) = loading st ∧
  isLogin (after_toggle (after_toggle st)) = isLogin st ∧
  formData (after_toggle (after_toggle st)) = formData initial_state ∧
  errors (after_toggle (after_toggle st)) = errors initial_state ∧
  showPassword (after_toggle (after_toggle st))
    = showPassword initial_state ∧
  showConfirmPassword (after_toggle (after_toggle st))
    = showConfirmPassword initial_state ∧
  loading (after_toggle (after_toggle st)) = loading st ∧
  (isLogin st = isLogin initial_state → loading st = loading initial_state →
   after_toggle (after_toggle st) = initial_state).
Proof.
  rewrite !after_toggle_eq. simpl. rewrite negb_involutive.
  repeat (split; [done|]).
  intros -> ->. reflexivity.
Qed.

Lemma toggleForm_correct_witness :
  after_toggle (after_toggle (Samples.login_state "a@b.c" "secret"))
  = initial_state.
Proof.
  destruct (toggleForm_correct (Samples.login_state "a@b.c" "secret"))
    as (_ & _ & _ & _ & _ & _ & _ & _ & _ & _ & _ & _ & _ & _ & Hinit).
  apply Hinit; reflexivity.
Defined.

(** C10. [handleInputChange] clears the error of a field by writing the
    empty string under its key: after the edit of a field that had an error
    the key is still in the errors object, mapped to the empty string, and the object is
    not the one with the key removed. Every reader of the object (the
    border class and the error paragraph of each input, and the test of
    [handleInputChange] itself) looks at the truthiness of an entry only,
    so it gives the same result for a key mapped to the empty string and for an absent
    key. *)
Theorem cleared_error_is_empty_string (st : State) (k : keyof_FormData)
    (value : jsstring) :
  (truthy (errors st !! key k) = true →
     errors (after_input st k value) !! key k = Some (empty_string) ∧
     key k ∈ dom (errors (after_input st k value)) ∧
     errors (after_input st k value)
       ≠ delete (key k) (errors (after_input st k value))) ∧
  (∀ (errs : gmap string jsstring) (g : keyof_FormData),
     border_class (<[key k := empty_string]> errs) g
       = border_class (delete (key k) errs) g ∧
     error_paragraph (<[key k := empty_string]> errs) g
       = error_paragraph (delete (key k) errs) g ∧
     error_paragraph (<[key k := empty_string]> errs) k = None ∧
     truthy (<[key k := empty_string]> errs !! key g)
       = truthy (delete (key k) errs !! key g)) ∧
  (∀ (errs : gmap string jsstring) (v : jsstring),
     errors (after_input (with_errors (<[key k := empty_string]> errs) st) k v)
       = <[key k := empty_string]> errs ∧
     errors (after_input (with_errors (delete (key k) errs) st) k v)
       = delete (key k) errs).
Proof.
  assert (∀ (errs : gmap string jsstring) g,
            truthy (<[key k := empty_string]> errs !! key g)
            = truthy (delete (key k) errs !! key g)) as Htruthy.
  { intros errs g. destruct (decide (key k = key g)) as [<-|Hne].
    - by rewrite lookup_insert_eq, lookup_delete_eq.
    - by rewrite lookup_insert_ne, lookup_delete_ne. }
  split; [|split].
  - intros Herr. rewrite after_input_eq. simpl. rewrite Herr.
    split; [by rewrite lookup_insert_eq|]. split.
    + apply elem_of_dom. rewrite lookup_insert_eq. by eexists.
    + intros Heq.
      assert (<[key k := empty_string]> (errors st) !! key k
              = delete (key k) (<[key k := empty_string]> (errors st)) !! key k)
        as Hlook by (by rewrite <- Heq).
      by rewrite lookup_insert_eq, lookup_delete_eq in Hlook.
  - intros errs g. unfold border_class, error_paragraph.
    rewrite !Htruthy.
    split; [done|]. split; [|split; [|done]].
    + destruct (truthy (delete (key k) errs !! key g)) eqn:Ht; [|done].
      destruct (decide (key k = key g)) as [Heq|Hne].
      * rewrite <- Heq in Ht. by rewrite lookup_delete_eq in Ht.
      * by rewrite lookup_insert_ne, lookup_delete_ne.
    + by rewrite lookup_delete_eq.
  - intros errs v. rewrite !after_input_eq. simpl.
    by rewrite lookup_insert_eq, lookup_delete_eq.
Qed.

Lemma cleared_error_is_empty_string_witness :
  errors (after_input
            (with_errors (<["email" := lit "Email is invalid"]> ∅)
                         (Samples.login_state "a@b" "secret"))
            k_email (lit "a@b.c"))
    !! "email" = Some (empty_string).
Proof.
  destruct (cleared_error_is_empty_string
              (with_errors (<["email" := lit "Email is invalid"]> ∅)
                           (Samples.login_state "a@b" "secret"))
              k_email (lit "a@b.c")) as (Hclear & _).
  destruct Hclear as (Hentry & _); [by vm_compute|exact Hentry].
Defined.

(** * Further properties *)

(** ** The wrappers of the provider's SDK *)

Lemma Firebase_signIn_throws (sdk : Sdk) (e p : jsstring) (t : thrown) :
  Firebase.signIn sdk e p = Throw t ↔
  t = TypeError_of_nullish ∧
  signInWithEmailAndPassword sdk e p = Throw Nullish.
Proof.
  unfold Firebase.signIn.
  destruct (signInWithEmailAndPassword sdk e p) as [u|[|err|]]; simpl;
    split; try done; try (by intros [_ ?]).
  - by intros [= <-].
  - by intros [-> _].
Qed.

Lemma Firebase_signUp_throws (sdk : Sdk) (e p n : jsstring) (t : thrown) :
  Firebase.signUp sdk e p n = Throw t ↔
  t = TypeError_of_nullish ∧ sdk_signUp_fault sdk e p n Nullish.
Proof.
  unfold Firebase.signUp, sdk_signUp_fault.
  destruct (createUserWithEmailAndPassword sdk e p) as [u|[|err|]]; simpl;
    [destruct (updateProfile sdk u n) as [x|[|err|]] eqn:Hup; simpl|..];
    split; try done.
  all: try (by intros [= <-]; split; [done|]; first [by left | right; by exists u]).
  all: try (by intros [-> _]).
  all: intros [_ [?|(u' & [= <-] & Hup')]]; try done; congruence.
Qed.

(** X1. A wrapper throws only when the SDK rejected with [null] or
    [undefined], and what it throws is then the [TypeError] of reading
    [.message], not the value of the SDK. When a wrapper returns, a user
    in the result is the one the SDK returned and comes without error, and
    an error in the result is the message of the [Error] object the SDK
    rejected with and comes without user; [resetPassword] returns success
    exactly when the SDK accepted the request. *)
Theorem Firebase_wrappers_results (sdk : Sdk) (e p n : jsstring) :
  (∀ t, Firebase.signIn sdk e p = Throw t →
        t = TypeError_of_nullish ∧
        signInWithEmailAndPassword sdk e p = Throw Nullish) ∧
  (∀ res, Firebase.signIn sdk e p = Normal res →
     (∀ u, user res = Some u →
           signInWithEmailAndPassword sdk e p = Normal u ∧
           error res = None) ∧
     (∀ m, error res = Some m →
           ∃ err : Error,
             signInWithEmailAndPassword sdk e p = Throw err ∧
             message err = m ∧ user res = None)) ∧
  (∀ t, Firebase.signUp sdk e p n = Throw t →
        t = TypeError_of_nullish ∧ sdk_signUp_fault sdk e p n Nullish) ∧
  (∀ res, Firebase.signUp sdk e p n = Normal res →
     (∀ u, user res = Some u →
           createUserWithEmailAndPassword sdk e p = Normal u ∧
           (∃ x, updateProfile sdk u n = Normal x) ∧
           error res = None) ∧
     (∀ m, error res = Some m →
           ∃ err : Error,
             sdk_signUp_fault sdk e p n err ∧
             message err = m ∧ user res = None)) ∧
  (∀ t, Firebase.resetPassword sdk e = Throw t →
        t = TypeError_of_nullish ∧
        sendPasswordResetEmail sdk e = Throw Nullish) ∧
  (∀ res, Firebase.resetPassword sdk e = Normal res →
     (success res = true ↔ ∃ x, sendPasswordResetEmail sdk e = Normal x) ∧
     (success res = true → reset_error res = None) ∧
     (∀ m, reset_error res = Some m →
           ∃ err : Error,
             sendPasswordResetEmail sdk e = Throw err ∧ message err = m)).
Proof.
  split; [intros t; apply Firebase_signIn_throws|].
  split.
  { unfold Firebase.signIn. intros res.
    destruct (signInWithEmailAndPassword sdk e p) as [u|[|err|]]; simpl;
      intros [= <-]; simpl; split; try done.
    - by intros u' [= <-].
    - intros m [= <-]. by exists err. }
  split; [intros t; apply Firebase_signUp_throws|].
  split.
  { unfold Firebase.signUp, sdk_signUp_fault. intros res.
    destruct (createUserWithEmailAndPassword sdk e p) as [u|[|err|]]; simpl;
      [destruct (updateProfile sdk u n) as [x|[|err|]] eqn:Hup; simpl|..];
      intros [= <-]; simpl; split; try done.
    - intros u' [= <-]. split; [done|]. split; [by exists x|done].
    - intros m [= <-]. exists err. split; [|done]. right. by exists u.
    - intros m [= <-]. exists err. split; [|done]. by left. }
  split.
  { unfold Firebase.resetPassword. intros t.
    destruct (sendPasswordResetEmail sdk e) as [x|[|err|]]; simpl; try done.
    by intros [= <-]. }
  unfold Firebase.resetPassword. intros res.
  destruct (sendPasswordResetEmail sdk e) as [x|[|err|]]; simpl;
    intros [= <-]; simpl.
  - split; [split; [by exists x|done]|]. by split.
  - split; [split; [done|by intros [? ?]]|]. split; [done|].
    intros m [= <-]. by exists err.
  - split; [split; [done|by intros [? ?]]|]. by split.
Qed.

(** X2. [signUp] reports the new user exactly when the account was created
    and its profile was then updated with the name. When the account was
    created and the update of the profile throws an [Error] object, the
    result is the message of that error and no user. *)
Theorem Firebase_signUp_two_steps (sdk : Sdk) (e p n : jsstring) :
  (∀ u, Firebase.signUp sdk e p n = Normal (mkAuthResult (Some u) None) ↔
        createUserWithEmailAndPassword sdk e p = Normal u ∧
        ∃ x, updateProfile sdk u n = Normal x) ∧
  (∀ u (err : Error), createUserWithEmailAndPassword sdk e p = Normal u →
            updateProfile sdk u n = Throw err →
            Firebase.signUp sdk e p n
            = Normal (mkAuthResult None (Some (message err)))) ∧
  (∀ err : Error, createUserWithEmailAndPassword sdk e p = Throw err →
          Firebase.signUp sdk e p n
          = Normal (mkAuthResult None (Some (message err)))).
Proof.
  unfold Firebase.signUp. split; [|split].
  - intros u. split.
    + destruct (createUserWithEmailAndPassword sdk e p) as [u'|[|err|]];
        simpl; [|done..].
      destruct (updateProfile sdk u' n) as [x|[|err|]] eqn:Hup; simpl;
        [|done..].
      intros [= ->]. split; [done|]. by eexists.
    + intros [-> [x ->]]. done.
  - by intros u err -> ->.
  - by intros err ->.
Qed.

Lemma Firebase_signUp_two_steps_witness :
  Firebase.signUp Samples.sdk_profile_fails (lit "ada@example.org")
                  (lit "secret1") (lit "Ada")
  = Normal (mkAuthResult None (Some (lit "auth/network-request-failed"))).
Proof.
  destruct (Firebase_signUp_two_steps Samples.sdk_profile_fails
              (lit "ada@example.org") (lit "secret1") (lit "Ada"))
    as (_ & Hprofile & _).
  apply (Hprofile Samples.some_user
                  (mkError (lit "auth/network-request-failed")));
    reflexivity.
Defined.

(** ** More on handleSubmit *)

Lemma toast_title_neq (t t' : Toast) : title t ≠ title t' → t ≠ t'.
Proof. by intros Hne ->. Qed.

Ltac not_the_fallback :=
  apply toast_title_neq; unfold Notify.something_went_wrong; simpl;
  vm_compute; discriminate.

Lemma newErrors_reads_mode_and_fields (st st' : State) :
  isLogin st = isLogin st' → formData st = formData st' →
  newErrors st = newErrors st'.
Proof. intros Hm Hf. unfold newErrors. by rewrite Hm, Hf. Qed.

(** X3. [handleSubmit] calls the provider exactly when it leaves the
    errors object empty: a submission that records an error calls nothing,
    and a submission that calls the provider shows no inline error
    afterwards. In both cases the errors object is the one [validateForm]
    computes, and the mode, the fields and the reveal flags are as they
    were. *)
Theorem handleSubmit_calls_iff_clean (w : World) (st : State) :
  (provider_calls (trace_of (run (handleSubmit w) st)) ≠ []
     ↔ errors (state_of (run (handleSubmit w) st)) = ∅) ∧
  errors (state_of (run (handleSubmit w) st)) = errors (validated st) ∧
  isLogin (state_of (run (handleSubmit w) st)) = isLogin st ∧
  formData (state_of (run (handleSubmit w) st)) = formData st ∧
  showPassword (state_of (run (handleSubmit w) st)) = showPassword st ∧
  showConfirmPassword (state_of (run (handleSubmit w) st))
    = showConfirmPassword st.
Proof.
  unfold validated. rewrite run_validateForm.
  unfold_handlers. simpl.
  destruct (size (newErrors st) =? 0) eqn:Hv; simpl.
  - apply Nat.eqb_eq, map_size_empty_iff in Hv.
    case_answers; by repeat split.
  - apply Nat.eqb_neq in Hv. rewrite map_size_empty_iff in Hv.
    by repeat split.
Qed.

(** X4. Whatever the environment does, one run of [handleSubmit] calls the
    provider at most once and the sink at most twice. A second notification
    is always the generic one, and it follows a notification that the sink
    threw on; after a provider call that threw, the generic notification is
    the only one. The handler itself throws only what the sink threw on the
    generic notification. *)
Theorem handleSubmit_bounds (w : World) (st : State) :
  length (provider_calls (trace_of (run (handleSubmit w) st))) ≤ 1 ∧
  length (toasts (trace_of (run (handleSubmit w) st))) ≤ 2 ∧
  (∀ t t' rest,
      toasts (trace_of (run (handleSubmit w) st)) = t :: t' :: rest →
      rest = [] ∧ t' = Notify.something_went_wrong ∧
      t ≠ Notify.something_went_wrong ∧ ∃ e, toast w t = Throw e) ∧
  (∀ e, completion_of (run (handleSubmit w) st) = Throw e →
        toast w Notify.something_went_wrong = Throw e ∧
        Notify.something_went_wrong
          ∈ toasts (trace_of (run (handleSubmit w) st))).
Proof.
  unfold_handlers. unfold Notify.something_went_wrong.
  destruct (size (newErrors st) =? 0) eqn:Hv; simpl.
  - case_answers; (split; [simpl; lia|]); (split; [simpl; lia|]); split.
    all: match goal with
         | |- ∀ t t' rest, _ = t :: t' :: rest → _ =>
             intros t t' rest Heq; try discriminate;
             injection Heq as <- <- <-;
             (split; [done|]); (split; [done|]);
             (split; [not_the_fallback|eexists; eassumption])
         | |- ∀ e, _ = Throw e → _ =>
             intros e' Heq; try discriminate;
             injection Heq as <-;
             (split; [done|]); rewrite ?elem_of_cons; tauto
         end.
  - split; [lia|]. split; [lia|]. split; [done|]. done.
Qed.

Lemma handleSubmit_toasts (w : World) (st : State) :
  completion_of (run validateForm st) = Normal true →
  match provider_answer w st with
  | Throw _ =>
      toasts (trace_of (run (handleSubmit w) st))
        = [Notify.something_went_wrong] ∧
      completion_of (run (handleSubmit w) st)
        = toast w Notify.something_went_wrong
  | Normal _ =>
      ∃ t, t ≠ Notify.something_went_wrong ∧
           ((∃ x, toast w t = Normal x) ∧
            toasts (trace_of (run (handleSubmit w) st)) = [t] ∧
            completion_of (run (handleSubmit w) st) = Normal tt
            ∨
            (∃ e, toast w t = Throw e) ∧
            toasts (trace_of (run (handleSubmit w) st))
              = [t; Notify.something_went_wrong] ∧
            completion_of (run (handleSubmit w) st)
              = toast w Notify.something_went_wrong)
  end.
Proof.
  intros Hvalid. apply validateForm_returns in Hvalid.
  unfold provider_answer. unfold_handlers.
  unfold Notify.something_went_wrong. rewrite Hvalid. simpl.
  destruct (isLogin st); simpl.
  - destruct (signIn w _ _) as [res|e]; simpl.
    + destruct (truthy (error res)); simpl;
        match goal with
        | |- context [toast ?w' ?t] =>
            exists t; split; [not_the_fallback|];
            destruct (toast w' t) as [[]|e1] eqn:H1; simpl
        end;
        first [ left; split; [by eexists|]; by split
              | right; split; [by eexists|]; split; [done|];
                by destruct (toast w _) as [[]|] ].
    + by destruct (toast w _) as [[]|].
  - destruct (signUp w _ _ _) as [res|e]; simpl.
    + destruct (truthy (error res)); simpl;
        match goal with
        | |- context [toast ?w' ?t] =>
            exists t; split; [not_the_fallback|];
            destruct (toast w' t) as [[]|e1] eqn:H1; simpl
        end;
        first [ left; split; [by eexists|]; by split
              | right; split; [by eexists|]; split; [done|];
                by destruct (toast w _) as [[]|] ].
    + by destruct (toast w _) as [[]|].
Qed.

Lemma shipped_answer_throws (sdk : Sdk) (sink : Toast → completion unit)
    (st : State) :
  (∃ e, provider_answer (shipped_world sdk sink) st = Throw e)
  ↔ sdk_rejects_nullish sdk st.
Proof.
  unfold provider_answer, sdk_rejects_nullish. simpl.
  destruct (isLogin st).
  - split.
    + intros [e He]. by apply Firebase_signIn_throws in He as [_ ?].
    + intros Hn. eexists. by apply Firebase_signIn_throws.
  - split.
    + intros [e He]. by apply Firebase_signUp_throws in He as [_ ?].
    + intros Hn. eexists. by apply Firebase_signUp_throws.
Qed.

(** X5. With the wrappers of [@/lib/firebase], [handleSubmit] emits the
    generic "Something went wrong" notification in two cases only: the SDK
    rejected with [null] or [undefined], and the generic notification is
    then the only one; or the sink threw on the notification that the
    submission emitted first, and the generic one follows it. So when the
    SDK does not reject with [null] or [undefined] and the sink accepts
    what it is given, a submission that passed validation completes
    normally with exactly one notification, which is not the generic
    one. *)
Theorem shipped_handleSubmit_no_fallback (sdk : Sdk)
    (sink : Toast → completion unit) (st : State)
    (Hvalid : completion_of (run validateForm st) = Normal true) :
  (Notify.something_went_wrong
     ∈ toasts (trace_of (run (handleSubmit (shipped_world sdk sink)) st)) →
   sdk_rejects_nullish sdk st ∧
   toasts (trace_of (run (handleSubmit (shipped_world sdk sink)) st))
     = [Notify.something_went_wrong]
   ∨
   ∃ t e, toasts (trace_of (run (handleSubmit (shipped_world sdk sink)) st))
          = [t; Notify.something_went_wrong] ∧
          t ≠ Notify.something_went_wrong ∧ sink t = Throw e) ∧
  (sdk_rejects_nullish sdk st →
   toasts (trace_of (run (handleSubmit (shipped_world sdk sink)) st))
     = [Notify.something_went_wrong] ∧
   completion_of (run (handleSubmit (shipped_world sdk sink)) st)
     = sink Notify.something_went_wrong) ∧
  (¬ sdk_rejects_nullish sdk st → (∀ t, sink t = Normal tt) →
   completion_of (run (handleSubmit (shipped_world sdk sink)) st)
     = Normal tt ∧
   ∃ t, toasts (trace_of (run (handleSubmit (shipped_world sdk sink)) st))
        = [t] ∧ t ≠ Notify.something_went_wrong).
Proof.
  pose proof (handleSubmit_toasts (shipped_world sdk sink) st Hvalid) as H.
  pose proof (shipped_answer_throws sdk sink st) as Hthrows.
  destruct (provider_answer (shipped_world sdk sink) st) as [res|e].
  - assert (¬ sdk_rejects_nullish sdk st) as Hnot.
    { intros Hn. apply Hthrows in Hn as [e He]. discriminate He. }
    destruct H as (t & Ht & [([x Hx] & Hts & Hc)|([e He] & Hts & Hc)]);
      simpl in *.
    + split; [|split].
      * rewrite Hts, list_elem_of_singleton. by intros <-.
      * done.
      * intros _ _. split; [done|]. by exists t.
    + split; [|split].
      * intros _. right. by exists t, e.
      * done.
      * intros _ Hsink. rewrite Hsink in He. discriminate He.
  - assert (sdk_rejects_nullish sdk st) as Hn.
    { apply Hthrows. by exists e. }
    destruct H as [Hts Hc]. simpl in *.
    split; [|split]; [by left|done|done].
Qed.

Lemma shipped_handleSubmit_no_fallback_witness :
  completion_of (run (handleSubmit
                        (shipped_world Samples.sdk_down Samples.sink_ok))
                     (Samples.login_state "ada@example.org" "secret1"))
  = Normal tt.
Proof.
  destruct (shipped_handleSubmit_no_fallback Samples.sdk_down Samples.sink_ok
              (Samples.login_state "ada@example.org" "secret1"))
    as (_ & _ & Hquiet).
  - vm_compute. reflexivity.
  - destruct Hquiet as (Hdone & _);
      [intros Hnull; discriminate Hnull|intros t; reflexivity|exact Hdone].
Defined.

(** X6. [handleSubmit] takes the result of the provider for a success
    whenever its [error] is falsy. A fault of the SDK whose message is the
    empty string reaches the handler, through the wrappers, as such a
    result: the first notification of the submission is then the positive
    one of the mode, although nobody was signed in or registered. *)
Theorem silent_fault_reported_as_success (sdk : Sdk)
    (sink : Toast → completion unit) (st : State)
    (Hvalid : completion_of (run validateForm st) = Normal true) :
  (isLogin st = true →
   ∀ e : Error, signInWithEmailAndPassword sdk (email (formData st))
                                   (password (formData st)) = Throw e →
        message e = [] →
        Firebase.signIn sdk (email (formData st)) (password (formData st))
          = Normal (mkAuthResult None (Some empty_string)) ∧
        ∃ rest,
          toasts (trace_of (run (handleSubmit (shipped_world sdk sink)) st))
          = Notify.welcome_back :: rest) ∧
  (isLogin st = false →
   ∀ e : Error, createUserWithEmailAndPassword sdk (email (formData st))
                                       (password (formData st)) = Throw e →
        message e = [] →
        Firebase.signUp sdk (email (formData st)) (password (formData st))
                        (name (formData st))
          = Normal (mkAuthResult None (Some empty_string)) ∧
        ∃ rest,
          toasts (trace_of (run (handleSubmit (shipped_world sdk sink)) st))
          = Notify.account_created :: rest).
Proof.
  apply validateForm_returns in Hvalid.
  split; intros Hmode e He Hmsg.
  - split; [unfold Firebase.signIn, Firebase.caught_auth; rewrite He; simpl;
            by rewrite Hmsg|].
    unfold_handlers. rewrite Hvalid, Hmode. simpl.
    unfold Firebase.signIn, Firebase.caught_auth. rewrite He. simpl.
    rewrite Hmsg. simpl.
    destruct (sink _); simpl; by eexists.
  - split; [unfold Firebase.signUp, Firebase.caught_auth; rewrite He; simpl;
            by rewrite Hmsg|].
    unfold_handlers. rewrite Hvalid, Hmode. simpl.
    unfold Firebase.signUp, Firebase.caught_auth. rewrite He. simpl.
    rewrite Hmsg. simpl.
    destruct (sink _); simpl; by eexists.
Qed.

Lemma silent_fault_reported_as_success_witness :
  toasts (trace_of (run (handleSubmit
                           (shipped_world Samples.sdk_silent_fault
                                          Samples.sink_ok))
                        (Samples.login_state "ada@example.org" "secret1")))
  = [Notify.welcome_back].
Proof.
  destruct (silent_fault_reported_as_success Samples.sdk_silent_fault
              Samples.sink_ok
              (Samples.login_state "ada@example.org" "secret1"))
    as (Hlogin & _).
  - vm_compute. reflexivity.
  - destruct (Hlogin eq_refl (mkError []) eq_refl eq_refl)
      as (_ & rest & Hrest).
    rewrite Hrest. vm_compute in Hrest. injection Hrest as <-.
    reflexivity.
Defined.

(** X7. What [handleSubmit] does depends on the mode and on the four
    fields only: two stores that agree on them give the same trace (the same
    provider call with the same arguments, the same notifications), the same
    completion and the same errors object, whatever their reveal flags,
    their loading cell and their previous errors. *)
Theorem handleSubmit_reads_mode_and_fields (w : World) (st st' : State)
    (Hmode : isLogin st = isLogin st')
    (Hfields : formData st = formData st') :
  trace_of (run (handleSubmit w) st) = trace_of (run (handleSubmit w) st') ∧
  completion_of (run (handleSubmit w) st)
    = completion_of (run (handleSubmit w) st') ∧
  errors (state_of (run (handleSubmit w) st))
    = errors (state_of (run (handleSubmit w) st')).
Proof.
  pose proof (newErrors_reads_mode_and_fields st st' Hmode Hfields) as Hnew.
  unfold_handlers. rewrite Hnew, Hmode, Hfields.
  destruct (size (newErrors st') =? 0); simpl; [|done].
  case_answers; done.
Qed.

Lemma handleSubmit_reads_mode_and_fields_witness :
  trace_of (run (handleSubmit Samples.world_ok)
                (mkState true
                   (mkFormData [] (lit "ada@example.org") (lit "secret1") [])
                   true false true
                   (<["email" := lit "Email is invalid"]> ∅)))
  = trace_of (run (handleSubmit Samples.world_ok)
                  (Samples.login_state "ada@example.org" "secret1")).
Proof.
  destruct (handleSubmit_reads_mode_and_fields Samples.world_ok
              (mkState true
                 (mkFormData [] (lit "ada@example.org") (lit "secret1") [])
                 true false true
                 (<["email" := lit "Email is invalid"]> ∅))
              (Samples.login_state "ada@example.org" "secret1")
              eq_refl eq_refl) as (Htrace & _).
  exact Htrace.
Defined.

(** ** validateForm and the render *)

Lemma validated_eq (st : State) :
  validated st = with_errors (newErrors st) st.
Proof. reflexivity. Qed.

Lemma newErrors_entry (st : State) (j : string) (m : jsstring) :
  newErrors st !! j = Some m →
  m ≠ [] ∧
  ∃ k, j = key k ∧ (isLogin st = true → k = k_email ∨ k = k_password).
Proof.
  intros Hj.
  assert (j ∈ all_keys) as Hin.
  { apply (newErrors_dom st), elem_of_dom. by eexists. }
  unfold all_keys in Hin.
  rewrite !elem_of_union, !elem_of_singleton in Hin.
  destruct Hin as [[[->| ->]| ->]| ->].
  - rewrite newErrors_name in Hj.
    destruct (isLogin st); simpl in Hj; [done|].
    destruct (is_empty _); [|done]. injection Hj as <-.
    split; [by vm_compute|]. exists k_name. by split.
  - rewrite newErrors_email in Hj. split; [|exists k_email; split; auto].
    destruct (is_empty _); [by injection Hj as <-|].
    destruct (negb _); [by injection Hj as <-|done].
  - rewrite newErrors_password in Hj.
    split; [|exists k_password; split; auto].
    destruct (is_empty _); [by injection Hj as <-|].
    destruct (_ <? _); [by injection Hj as <-|done].
  - rewrite newErrors_confirmPassword in Hj.
    destruct (isLogin st); simpl in Hj; [done|].
    split; [|exists k_confirmPassword; by split].
    destruct (is_empty _); [by injection Hj as <-|].
    destruct (strict_neq _ _); [by injection Hj as <-|done].
Qed.

Lemma rendered_input (st : State) (k : keyof_FormData) :
  (isLogin st = true → k = k_email ∨ k = k_password) →
  ∃ type, render_input st k type ∈ inputs (render st).
Proof.
  intros Hk. unfold render; simpl.
  destruct (isLogin st); simpl.
  - destruct (Hk eq_refl) as [-> | ->]; eexists;
      rewrite !elem_of_cons; eauto.
  - destruct k; eexists; rewrite !elem_of_cons; eauto.
Qed.

Lemma rendered_names (st : State) (k : keyof_FormData) :
  k ∈ map input_name (inputs (render st)) ↔
  (isLogin st = true → k = k_email ∨ k = k_password).
Proof.
  unfold render; simpl. destruct (isLogin st); simpl.
  - rewrite !elem_of_cons, elem_of_nil. split; [tauto|].
    intros H. destruct (H eq_refl); tauto.
  - rewrite !elem_of_cons, elem_of_nil. split; [done|].
    intros _. destruct k; tauto.
Qed.

Lemma truthy_entry_displayed (errs : gmap string jsstring) k
    (m : jsstring) :
  errs !! key k = Some m → m ≠ [] →
  error_paragraph errs k = Some m ∧
  border_class errs k = "border-rose-300 bg-rose-50/50".
Proof.
  intros Hk Hm. unfold error_paragraph, border_class. rewrite Hk.
  by destruct m.
Qed.

(** X8. Every error that [validateForm] records is shown: its message is
    not empty, its key is the name of an input of the next render, and that
    input has the error border and the message in the paragraph under it.
    So a validation that fails is never silent: some rendered input shows a
    message. *)
Theorem validateForm_errors_displayed (st : State) :
  (∀ j (m : jsstring), errors (validated st) !! j = Some m →
          m ≠ [] ∧
          ∃ v, v ∈ inputs (render (validated st)) ∧
               key (input_name v) = j ∧
               input_message v = Some m ∧
               input_border v = "border-rose-300 bg-rose-50/50") ∧
  (completion_of (run validateForm st) = Normal false →
   ∃ v m, v ∈ inputs (render (validated st)) ∧
          input_message v = Some m ∧ m ≠ []).
Proof.
  assert (∀ j (m : jsstring), errors (validated st) !! j = Some m →
          m ≠ [] ∧
          ∃ v, v ∈ inputs (render (validated st)) ∧
               key (input_name v) = j ∧
               input_message v = Some m ∧
               input_border v = "border-rose-300 bg-rose-50/50") as Hshown.
  { intros j m Hj. rewrite validated_eq in *. simpl in Hj.
    destruct (newErrors_entry st j m Hj) as (Hm & k & -> & Hk).
    split; [done|].
    destruct (rendered_input (with_errors (newErrors st) st) k Hk)
      as (type & Hin).
    exists (render_input (with_errors (newErrors st) st) k type).
    split; [done|]. split; [done|]. simpl.
    by apply truthy_entry_displayed. }
  split; [exact Hshown|].
  intros Hfail. apply validateForm_returns in Hfail.
  apply Nat.eqb_neq in Hfail. rewrite map_size_empty_iff in Hfail.
  apply map_choose in Hfail as (j & m & Hj).
  destruct (Hshown j m) as (Hm & v & Hin & _ & Hmsg & _); [done|].
  by exists v, m.
Qed.

Lemma validateForm_errors_displayed_witness :
  ∃ v m, v ∈ inputs (render (validated (Samples.login_state "ada" "secret1")))
         ∧ input_message v = Some m ∧ m ≠ [].
Proof.
  destruct (validateForm_errors_displayed
              (Samples.login_state "ada" "secret1")) as (_ & Hfail).
  apply Hfail. vm_compute. reflexivity.
Defined.

(** X9. Validation is local to the fields: after the edit of one field, a
    new validation gives every other field the message it had, or none as
    before; only the confirmPassword rule reads a second field, the
    password. *)
Theorem revalidation_is_local (st : State) (k j : keyof_FormData)
    (value : jsstring)
    (Hother : j ≠ k)
    (Hconfirm : ¬ (j = k_confirmPassword ∧ k = k_password)) :
  errors (validated (after_input st k value)) !! key j
  = errors (validated st) !! key j.
Proof.
  rewrite !validated_eq, after_input_eq. simpl.
  destruct j; simpl;
    rewrite ?newErrors_name, ?newErrors_email, ?newErrors_password,
      ?newErrors_confirmPassword; simpl;
    destruct k; simpl; try done; tauto.
Qed.

Lemma revalidation_is_local_witness :
  errors (validated (after_input (Samples.login_state "ada" "abc")
                                 k_email (lit "ada@example.org")))
    !! key k_password
  = Some (lit "Password must be at least 6 characters").
Proof.
  rewrite (revalidation_is_local (Samples.login_state "ada" "abc")
             k_email k_password (lit "ada@example.org")).
  - vm_compute. reflexivity.
  - discriminate.
  - intros [_ Hk]. discriminate Hk.
Defined.

(** ** What the email test lets through *)

(** X10. An email that [validateForm] accepts has five code units at
    least, and an '@' with something before it, a '.' somewhere after the
    '@' with something in between, and something after that '.'. *)
Theorem accepted_email_has_at_and_dot (st : State)
    (Haccepted : errors (validated st) !! "email" = None) :
  5 ≤ length (email (formData st)) ∧
  ∃ x y z : jsstring,
    email (formData st) = x ++ [64%N] ++ y ++ [46%N] ++ z ∧
    x ≠ [] ∧ y ≠ [] ∧ z ≠ [].
Proof.
  rewrite validated_eq in Haccepted. simpl in Haccepted.
  apply email_ok_iff in Haccepted as [_ Hshape].
  destruct Hshape as (pre & u & post & E & a & b & c & -> & Ha & Hb & Hc).
  destruct Ha as [Ha _], Hb as [Hb _], Hc as [Hc _].
  assert (email (formData st)
          = (pre ++ a) ++ [64%N] ++ b ++ [46%N] ++ (c ++ post)) as E'.
  { rewrite E. by rewrite <- !app_assoc. }
  split.
  - rewrite E', !length_app. simpl.
    destruct a; [done|]. destruct b; [done|]. destruct c; [done|].
    simpl. lia.
  - exists (pre ++ a), b, (c ++ post). split; [done|].
    split; [by destruct pre, a|]. split; [done|]. by destruct c.
Qed.

Lemma accepted_email_has_at_and_dot_witness :
  5 ≤ length (email (formData (Samples.login_state "a@b.c" "secret1"))).
Proof.
  destruct (accepted_email_has_at_and_dot
              (Samples.login_state "a@b.c" "secret1")) as (Hlen & _).
  - vm_compute. reflexivity.
  - exact Hlen.
Defined.

(** X11. The email test is not anchored: when [validateForm] accepts an
    email, it accepts every string that contains it, whatever is put before
    or after (spaces and further '@' included). *)
Theorem accepted_email_survives_padding (st st' : State)
    (pre post : jsstring)
    (Haccepted : errors (validated st) !! "email" = None)
    (Hpadded : email (formData st') = pre ++ email (formData st) ++ post) :
  errors (validated st') !! "email" = None.
Proof.
  rewrite validated_eq in *. simpl in *.
  apply email_ok_iff in Haccepted as [Hne Hshape].
  apply email_ok_iff. split.
  - rewrite Hpadded. destruct (email (formData st)); [done|].
    by destruct pre.
  - destruct Hshape as (pre' & u & post' & E & Hu).
    exists (pre ++ pre'), u, (post' ++ post). split; [|done].
    rewrite Hpadded, E. by rewrite <- !app_assoc.
Qed.

Lemma accepted_email_survives_padding_witness :
  errors (validated (Samples.login_state "to: a@b.c, x@y" "secret1"))
    !! "email" = None.
Proof.
  apply (accepted_email_survives_padding
           (Samples.login_state "a@b.c" "secret1")
           (Samples.login_state "to: a@b.c, x@y" "secret1")
           (lit "to: ") (lit ", x@y")).
  - vm_compute. reflexivity.
  - vm_compute. reflexivity.
Defined.

(** ** Edits *)

Lemma set_field_twice k v v' d : set_field k v' (set_field k v d) = set_field k v' d.
Proof. by destruct k. Qed.

Lemma set_field_commute k k' v v' d :
  k ≠ k' →
  set_field k' v' (set_field k v d) = set_field k v (set_field k' v' d).
Proof. by destruct k, k'. Qed.

(** X12. Edits compose as assignments do. Two edits of the same field
    leave what the second alone would leave, in the form data and in the
    errors object; two edits of different fields give the same store in
    either order. *)
Theorem edits_compose (st : State) (k k' : keyof_FormData)
    (v v' : jsstring) :
  after_input (after_input st k v) k v' = after_input st k v' ∧
  (k ≠ k' →
   after_input (after_input st k v) k' v'
   = after_input (after_input st k' v') k v).
Proof.
  rewrite !after_input_eq. simpl. split.
  - rewrite set_field_twice.
    destruct (truthy (errors st !! key k)) eqn:Ht; simpl.
    + by rewrite lookup_insert_eq.
    + by rewrite Ht.
  - intros Hne. rewrite (set_field_commute k k') by done.
    assert (key k ≠ key k') as Hkey.
    { intros Heq. by apply key_inj in Heq. }
    destruct (truthy (errors st !! key k)) eqn:Ht;
      destruct (truthy (errors st !! key k')) eqn:Ht'; simpl;
      rewrite ?lookup_insert_ne, ?Ht, ?Ht' by done; try done.
    by rewrite insert_insert_ne.
Qed.

Lemma edits_compose_witness :
  after_input (after_input (Samples.login_state "a" "b") k_email (lit "x"))
              k_password (lit "y")
  = after_input (after_input (Samples.login_state "a" "b")
                             k_password (lit "y"))
                k_email (lit "x").
Proof.
  destruct (edits_compose (Samples.login_state "a" "b") k_email k_password
              (lit "x") (lit "y")) as (_ & Hcommute).
  apply Hcommute. discriminate.
Defined.

(** ** Invariants of the reachable stores *)

Lemma handleSubmit_state (w : World) (st : State) :
  state_of (run (handleSubmit w) st)
  = mkState (isLogin st) (formData st) (showPassword st)
            (showConfirmPassword st)
            (if size (newErrors st) =? 0 then false else loading st)
            (newErrors st).
Proof.
  unfold_handlers. destruct (size (newErrors st) =? 0); simpl; [|done].
  case_answers; reflexivity.
Qed.

Lemma handleForgotPassword_state (w : World) (st : State) :
  state_of (run (handleForgotPassword w) st) = st.
Proof.
  unfold_handlers. destruct (is_empty (email (formData st))); [done|].
  case_answers; reflexivity.
Qed.

Lemma handleSubmit_begin_state (st : State) :
  state_of (run handleSubmit_begin st)
  = mkState (isLogin st) (formData st) (showPassword st)
            (showConfirmPassword st)
            (if size (newErrors st) =? 0 then true else loading st)
            (newErrors st) ∧
  completion_of (run handleSubmit_begin st)
  = Normal (size (newErrors st) =? 0).
Proof.
  unfold handleSubmit_begin, call_made. unfold_handlers.
  by destruct (size (newErrors st) =? 0).
Qed.

Lemma handleSubmit_resume_state (w : World) (r : State)
    (answer : completion AuthResult) (st : State) (tr : list event) :
  state_of (handleSubmit_resume w r answer st tr)
  = mkState (isLogin st) (formData st) (showPassword st)
            (showConfirmPassword st) false (errors st).
Proof.
  unfold handleSubmit_resume, call_settled. unfold_handlers.
  destruct answer as [res|e]; simpl.
  - destruct (isLogin r), (truthy (error res)); simpl;
      case_answers; reflexivity.
  - case_answers; reflexivity.
Qed.

(** Run to its end without interruption, [handleSubmit] is its first half
    followed by its second half on the answer of the provider. *)
Lemma handleSubmit_two_halves (w : World) (st : State) :
  run (handleSubmit w) st
  = match run handleSubmit_begin st with
    | (Normal true, st1, tr1) =>
        handleSubmit_resume w st (provider_answer w st) st1 tr1
    | (Normal false, st1, tr1) => (Normal tt, st1, tr1)
    | (Throw e, st1, tr1) => (Throw e, st1, tr1)
    end.
Proof.
  unfold handleSubmit_begin, handleSubmit_resume, provider_answer,
    call_made, call_settled.
  unfold Notify.login_failed, Notify.welcome_back,
    Notify.registration_failed, Notify.account_created,
    Notify.something_went_wrong.
  unfold_handlers.
  destruct (size (newErrors st) =? 0); simpl; [|done].
  case_answers; reflexivity.
Qed.

(** A submission that nothing interrupts is a run of the interleaved
    system. *)
Lemma reachable_atomic_submit (w : World) (st : State)
    (pending : list State) :
  reachable_with st pending → reachable_with (step w Submit st) pending.
Proof.
  intros Hreach. unfold step. cbn [handler].
  destruct (handleSubmit_begin_state st) as [Hstate Hdone].
  pose proof (reachable_submit st pending _ Hreach Hdone) as Hbegin.
  rewrite handleSubmit_state.
  destruct (size (newErrors st) =? 0) eqn:Hv.
  - pose proof (reachable_settle w (provider_answer w st) st _ [] pending
                  Hbegin) as Hsettle.
    rewrite handleSubmit_resume_state, Hstate in Hsettle. exact Hsettle.
  - by rewrite Hstate in Hbegin.
Qed.

Lemma store_invariant_initial : store_invariant initial_state [].
Proof.
  split; [|done]. intros j Hj. simpl in Hj. by rewrite dom_empty_L in Hj.
Qed.

Lemma store_invariant_step (w : World) (a : action) (st : State)
    (pending : list State) :
  store_invariant st pending → a ≠ Submit → offered st a = true →
  store_invariant (step w a st) pending.
Proof.
  intros (Herr & Hload & Hhidden) Hsync Hoff. unfold step.
  destruct a as [| |k value| | |]; cbn [handler].
  - done.
  - by rewrite handleForgotPassword_state.
  - fold (after_input st k value). rewrite after_input_eq.
    cbn [offered] in Hoff. apply bool_decide_eq_true in Hoff.
    pose proof (proj1 (rendered_names st k) Hoff) as Hshown.
    split; [|split]; cbn [errors isLogin loading formData].
    + intros j Hj. apply Herr.
      destruct (truthy (errors st !! key k)) eqn:Ht; [|done].
      rewrite dom_insert_L in Hj. apply elem_of_union in Hj as [Hj|Hj];
        [|done].
      apply elem_of_singleton in Hj as ->. apply elem_of_dom.
      destruct (errors st !! key k); [by eexists|done].
    + done.
    + intros Hmode. destruct (Hhidden Hmode) as [Hn Hc].
      destruct (Hshown Hmode) as [-> | ->]; by simpl.
  - fold (after_toggle st). rewrite after_toggle_eq. split; [|split];
      cbn [errors isLogin loading formData name confirmPassword].
    + intros j Hj. by rewrite dom_empty_L in Hj.
    + done.
    + done.
  - done.
  - done.
Qed.

Lemma reachable_store_invariant (st : State) (pending : list State) :
  reachable_with st pending → store_invariant st pending.
Proof.
  induction 1 as [|w a st pending _ IH Hsync Hoff
                 |st pending b _ IH Hdone
                 |w answer r st pending1 pending2 _ IH].
  - apply store_invariant_initial.
  - by apply store_invariant_step.
  - destruct IH as (Herr & Hload & Hhidden).
    destruct (handleSubmit_begin_state st) as [-> Hb].
    rewrite Hb in Hdone. injection Hdone as <-.
    split; [|split]; cbn [errors isLogin loading formData].
    + intros j Hj. apply elem_of_dom in Hj as [m Hj].
      destruct (newErrors_entry st j m Hj) as (_ & k & -> & Hk).
      by exists k.
    + by destruct (size (newErrors st) =? 0).
    + done.
  - destruct IH as (Herr & Hload & Hhidden).
    rewrite handleSubmit_resume_state.
    split; [|split]; cbn [errors isLogin loading formData]; done.
Qed.

(** X13. In every reachable store, each key of the errors object is the
    name of an input that the render of that store contains: no error is
    ever kept for a field the current mode does not show, whatever the
    sequence of submissions, edits, toggles and reset requests and whatever
    the provider and the sink answered. *)
Theorem reachable_errors_belong_to_rendered_inputs (st : State)
    (Hreach : reachable st) :
  ∀ j, j ∈ dom (errors st) →
       ∃ v, v ∈ inputs (render st) ∧ key (input_name v) = j.
Proof.
  intros j Hj. destruct Hreach as [pending Hreach].
  destruct (reachable_store_invariant st pending Hreach) as (Herr & _).
  destruct (Herr j Hj) as (k & -> & Hk).
  destruct (rendered_input st k Hk) as (type & Hin).
  by exists (render_input st k type).
Qed.

(** X14. The loading cell is true only while a submission awaits the
    provider: when none does, it is false, whatever number of submissions
    were started and however they interleaved with the other handlers.
    The submit button is then enabled, without spinner, and carries the
    label of the mode, not "Please wait...". *)
Theorem idle_store_is_not_loading (st : State) (pending : list State)
    (Hreach : reachable_with st pending) :
  (loading st = true → pending ≠ []) ∧
  (pending = [] →
   loading st = false ∧
   submit_disabled (render st) = false ∧
   submit_spinner (render st) = false ∧
   submit_label (render st)
     = (if isLogin st then "Sign In" else "Create Account")).
Proof.
  destruct (reachable_store_invariant st pending Hreach) as (_ & Hload & _).
  split.
  - intros Htrue ->. rewrite Hload in Htrue; done.
  - intros ->. unfold render; simpl. by rewrite Hload.
Qed.

(** X15. In every reachable store in Login mode the name and the
    confirmPassword fields are empty: [toggleForm] empties them and the
    Login render has no input to edit them. In particular nothing typed in
    Register mode is kept when the user comes back from Login mode. *)
Theorem reachable_login_hides_empty_fields (st : State)
    (Hreach : reachable st) (Hmode : isLogin st = true) :
  name (formData st) = [] ∧ confirmPassword (formData st) = [].
Proof.
  destruct Hreach as [pending Hreach].
  destruct (reachable_store_invariant st pending Hreach)
    as (_ & _ & Hhidden).
  by apply Hhidden.
Qed.

(** The store of a submission that awaits the provider is reachable: its
    loading cell is true and its button is disabled. *)
Example awaiting_login_is_reachable :
  reachable_with Scenarios.awaiting_login [Scenarios.filled_login] ∧
  loading Scenarios.awaiting_login = true ∧
  submit_disabled (render Scenarios.awaiting_login) = true ∧
  submit_label (render Scenarios.awaiting_login) = "Please wait...".
Proof.
  split; [|by vm_compute].
  apply (reachable_submit Scenarios.filled_login [] true); [|by vm_compute].
  unfold Scenarios.filled_login.
  apply reachable_step; [|discriminate|reflexivity].
  apply reachable_step; [|discriminate|reflexivity].
  apply reachable_initial.
Qed.

Lemma reachable_errors_belong_to_rendered_inputs_witness :
  ∃ v, v ∈ inputs (render Scenarios.bad_login) ∧
       key (input_name v) = "email".
Proof.
  apply (reachable_errors_belong_to_rendered_inputs Scenarios.bad_login).
  - exists []. unfold Scenarios.bad_login.
    apply reachable_atomic_submit.
    apply reachable_step; [|discriminate|reflexivity].
    apply reachable_initial.
  - apply elem_of_dom. exists (lit "Email is invalid"). vm_compute.
    reflexivity.
Defined.

Lemma idle_store_is_not_loading_witness :
  loading Scenarios.failed_login = false.
Proof.
  destruct (idle_store_is_not_loading Scenarios.failed_login [])
    as (_ & Hidle).
  - unfold Scenarios.failed_login.
    apply reachable_atomic_submit.
    apply reachable_step; [|discriminate|reflexivity].
    apply reachable_step; [|discriminate|reflexivity].
    apply reachable_initial.
  - destruct (Hidle eq_refl) as (Hloading & _). exact Hloading.
Defined.

Lemma reachable_login_hides_empty_fields_witness :
  name (formData Scenarios.back_to_login) = [].
Proof.
  destruct (reachable_login_hides_empty_fields Scenarios.back_to_login)
    as (Hname & _).
  - exists []. unfold Scenarios.back_to_login.
    apply reachable_step; [|discriminate|reflexivity].
    apply reachable_step; [|discriminate|reflexivity].
    apply reachable_step; [|discriminate|reflexivity].
    apply reachable_initial.
  - reflexivity.
  - exact Hname.
Defined.

(** ** More on what the handlers send and show *)

(** X16. [handleSubmit] never gives the provider data that breaks a rule:
    a [signIn] call carries the email and the password of the form, in
    Login mode, with a password of six code units at least and an email
    that passes the test; a [signUp] call carries the email, the password
    and the name of the form, in Register mode, with in addition a name
    that is not empty and a confirmation equal to the password.
    [handleSubmit] never calls [resetPassword]. *)
Theorem handleSubmit_sends_only_valid_data (w : World) (st : State) :
  (∀ e p, CallSignIn e p ∈ trace_of (run (handleSubmit w) st) →
          isLogin st = true ∧
          e = email (formData st) ∧ p = password (formData st) ∧
          6 ≤ length p ∧ test email_regex e = true) ∧
  (∀ e p n, CallSignUp e p n ∈ trace_of (run (handleSubmit w) st) →
            isLogin st = false ∧
            e = email (formData st) ∧ p = password (formData st) ∧
            n = name (formData st) ∧
            6 ≤ length p ∧ test email_regex e = true ∧
            n ≠ [] ∧ confirmPassword (formData st) = p) ∧
  (∀ e, CallResetPassword e ∉ trace_of (run (handleSubmit w) st)).
Proof.
  unfold_handlers.
  destruct (size (newErrors st) =? 0) eqn:Hv; simpl.
  - apply size_newErrors_rules in Hv as ([_ He] & [_ Hp] & Hreg).
    apply email_test_spec in He.
    destruct (isLogin st) eqn:Hmode; simpl.
    + case_answers; (split; [|split]); intros;
        repeat match goal with
               | H : _ ∈ _ :: _ |- _ =>
                   apply elem_of_cons in H as [H|H]; try discriminate H
               | H : _ ∈ [] |- _ => by apply elem_of_nil in H
               | H : CallSignIn _ _ = CallSignIn _ _ |- _ =>
                   injection H as -> ->
               | |- _ ∉ _ => intros ?
               end; done.
    + destruct (Hreg eq_refl) as (Hn & _ & Hc).
      case_answers; (split; [|split]); intros;
        repeat match goal with
               | H : _ ∈ _ :: _ |- _ =>
                   apply elem_of_cons in H as [H|H]; try discriminate H
               | H : _ ∈ [] |- _ => by apply elem_of_nil in H
               | H : CallSignUp _ _ _ = CallSignUp _ _ _ |- _ =>
                   injection H as -> -> ->
               | |- _ ∉ _ => intros ?
               end; done.
  - split; [|split]; intros; try intros ?;
      match goal with H : _ ∈ [] |- _ => by apply elem_of_nil in H end.
Qed.

Lemma handleSubmit_sends_only_valid_data_witness :
  6 ≤ length (lit "secret1").
Proof.
  destruct (handleSubmit_sends_only_valid_data Samples.world_ok
              (Samples.login_state "a@b.c" "secret1")) as (Hin & _).
  destruct (Hin (lit "a@b.c") (lit "secret1")) as (_ & _ & _ & Hlen & _).
  - apply elem_of_cons. right. apply elem_of_cons. left. reflexivity.
  - exact Hlen.
Defined.

(** X17. With the wrappers of [@/lib/firebase], [handleForgotPassword]
    never writes the store, and it ends with exactly one notification,
    completing as the sink does on it, in every case but one: "Email
    Required" for an empty email, "Reset Email Sent" when the SDK accepted
    the request, "Reset Failed" with the message of the fault when the SDK
    rejected with an [Error] object, "Reset Failed" without description
    when it rejected with a value that has no message. When the SDK
    rejects with [null] or [undefined] there is no notification: the
    [TypeError] of the wrapper comes out of the handler. *)
Theorem shipped_handleForgotPassword_one_toast (sdk : Sdk)
    (sink : Toast → completion unit) (st : State) :
  state_of (run (handleForgotPassword (shipped_world sdk sink)) st) = st ∧
  (email (formData st) = [] →
   toasts (trace_of (run (handleForgotPassword (shipped_world sdk sink)) st))
     = [Notify.email_required] ∧
   completion_of (run (handleForgotPassword (shipped_world sdk sink)) st)
     = sink Notify.email_required) ∧
  (email (formData st) ≠ [] →
   (∀ x, sendPasswordResetEmail sdk (email (formData st)) = Normal x →
      toasts (trace_of (run (handleForgotPassword
                               (shipped_world sdk sink)) st))
        = [Notify.reset_email_sent] ∧
      completion_of (run (handleForgotPassword (shipped_world sdk sink)) st)
        = sink Notify.reset_email_sent) ∧
   (∀ e : Error,
      sendPasswordResetEmail sdk (email (formData st)) = Throw e →
      toasts (trace_of (run (handleForgotPassword
                               (shipped_world sdk sink)) st))
        = [Notify.reset_failed (Some (message e))] ∧
      completion_of (run (handleForgotPassword (shipped_world sdk sink)) st)
        = sink (Notify.reset_failed (Some (message e)))) ∧
   (sendPasswordResetEmail sdk (email (formData st)) = Throw OtherValue →
      toasts (trace_of (run (handleForgotPassword
                               (shipped_world sdk sink)) st))
        = [Notify.reset_failed None] ∧
      completion_of (run (handleForgotPassword (shipped_world sdk sink)) st)
        = sink (Notify.reset_failed None)) ∧
   (sendPasswordResetEmail sdk (email (formData st)) = Throw Nullish →
      toasts (trace_of (run (handleForgotPassword
                               (shipped_world sdk sink)) st))
        = [] ∧
      completion_of (run (handleForgotPassword (shipped_world sdk sink)) st)
        = Throw TypeError_of_nullish)).
Proof.
  split; [apply handleForgotPassword_state|].
  unfold_handlers.
  unfold Notify.email_required, Notify.reset_email_sent, Notify.reset_failed.
  split.
  - intros ->. by simpl.
  - intros He. apply is_empty_false in He. rewrite He. simpl.
    unfold Firebase.resetPassword.
    repeat split; intros; simplify_eq;
      repeat match goal with
             | H : sendPasswordResetEmail _ _ = _ |- _ => rewrite H
             end; simpl; done.
Qed.

(** X18. From a reachable store in Login mode in which no submission
    awaits the provider, two toggles in a row give the initial state
    exactly: the fields, the errors and the reveal flags are reset, the
    mode is Login again and the loading cell is false. *)
Theorem reachable_login_double_toggle (st : State)
    (Hreach : reachable_with st []) (Hmode : isLogin st = true) :
  after_toggle (after_toggle st) = initial_state.
Proof.
  destruct (reachable_store_invariant st [] Hreach) as (_ & Hload & _).
  rewrite !after_toggle_eq. simpl. by rewrite Hmode, Hload.
Qed.

Lemma reachable_login_double_toggle_witness :
  after_toggle (after_toggle Scenarios.bad_login) = initial_state.
Proof.
  apply reachable_login_double_toggle.
  - unfold Scenarios.bad_login.
    apply reachable_atomic_submit.
    apply reachable_step; [|discriminate|reflexivity].
    apply reachable_initial.
  - reflexivity.
Defined.
